(** * Deepfake audio detection: the audio-to-decision explainability pipeline

    A shallow embedding of [app.py]: the feature extractor
    ([create_spectrogram]), the classifier adapter ([predictions]), the two
    explainers ([lime_predict], [grad_predict]) and the orchestrator
    ([homepage]).

    Numbers.  Pixel channels are [uint8] values, modelled by [Byte.byte].
    Floating-point tensors are modelled by exact rationals [Q]; the result of
    a tensor division is a [tfloat], which adds the IEEE special values that a
    division can produce (NaN and the two infinities).  Rounding is not
    modelled.

    Effects.  Python exceptions are the [Raise] case of [result]; code that
    touches the file system or the Streamlit page runs in the state monad [M]
    over a [world].  A raised exception keeps the world as it was at the point
    of the raise, as in Python.  Files are kept under their canonical
    absolute path, so that two spellings of one file are one file; the page
    lists what the display calls wrote and the widgets rendered.  A world
    belongs to one run of the script: time, the state the libraries keep
    between calls and other sessions working in the same directory are not
    part of it.

    Libraries.  librosa, matplotlib, Keras, LIME, TensorFlow and OpenCV are not
    part of the program.  The calls whose result the program only passes on
    are fields of the record [Libs]; the calls whose documented behaviour a
    property needs (list indexing, [os.path.join], [np.argmax], the
    nearest-neighbour resize of [load_img], the tensor arithmetic of the
    Grad-CAM heatmap) are written out. *)

From Stdlib Require Import ZArith QArith Qminmax Qabs List String Bool Lia.
From Stdlib.Strings Require Import Ascii Byte.
From stdpp Require Import base list strings gmap sorting.
Import ListNotations.

Local Open Scope string_scope.
Local Open Scope list_scope.

(** ** Python runtime *)

Module Py.

(** An exception: its class name and its message ([str(e)]). *)
Record exn := Exn { exn_kind : string; exn_msg : string }.

Inductive result (A : Type) : Type :=
| Ok (a : A)
| Raise (e : exn).
Arguments Ok {A} a.
Arguments Raise {A} e.

Definition bind {A B} (r : result A) (k : A -> result B) : result B :=
  match r with
  | Ok a => k a
  | Raise e => Raise e
  end.

Definition IndexError : exn := Exn "IndexError" "list index out of range".
Definition ValueError (msg : string) : exn := Exn "ValueError" msg.
Definition FileNotFoundError (p : string) : exn := Exn "FileNotFoundError" p.
Definition KeyError (msg : string) : exn := Exn "KeyError" msg.

(** [l[i]] on a Python list: negative indices count from the end. *)
Definition getitem {A} (l : list A) (i : Z) : result A :=
  let n := Z.of_nat (length l) in
  let j := if (i <? 0)%Z then (i + n)%Z else i in
  if ((0 <=? j)%Z && (j <? n)%Z)%bool then
    match l !! Z.to_nat j with
    | Some x => Ok x
    | None => Raise IndexError
    end
  else Raise IndexError.

(** [os.path.join(a, b)]: an absolute second component discards the first. *)
Definition os_path_join (a b : string) : string :=
  match b with
  | String "/"%char _ => b
  | _ => a +:+ "/" +:+ b
  end.

End Py.
Import Py.

(** ** Paths *)

Module Os.

(** The components of a path: the pieces between slashes. *)
Fixpoint components (s : string) : list string :=
  match s with
  | EmptyString => [""]
  | String c s' =>
      if Ascii.eqb c "/" then "" :: components s'
      else match components s' with
           | [] => [String c ""]
           | x :: xs => String c x :: xs
           end
  end.

(** One step of a walk from the root; [stack] is the directory reached,
    innermost component first.  An empty component and [.] stay in place,
    [..] goes up and stays at the root. *)
Definition step (stack : list string) (c : string) : list string :=
  if (String.eqb c "" || String.eqb c ".")%bool then stack
  else if String.eqb c ".." then tail stack
  else c :: stack.

(** The file a path names: its absolute path in canonical form, from the
    working directory [cwd] when the path is relative.  The walk is lexical:
    it is the file the system opens when no component is a symbolic link and
    the directories on the way exist. *)
Definition resolve (cwd path : string) : string :=
  let full :=
    match path with
    | String "/"%char _ => path
    | _ => cwd +:+ "/" +:+ path
    end in
  match rev (fold_left step (components full) []) with
  | [] => "/"
  | comps => fold_right (fun c acc => "/" +:+ c +:+ acc) "" comps
  end.

End Os.

Declare Scope py_scope.
Delimit Scope py_scope with py.
Notation "x <- r ;; k" := (Py.bind r (fun x => k))
  (at level 100, r at next level, right associativity) : py_scope.

(** ** numpy *)

Module Np.

(** A [uint8] as a rational. *)
Definition of_uint8 (b : byte) : Q := inject_Z (Z.of_N (Byte.to_N b)).

Definition map3 {A B} (f : A -> B) (t : list (list (list A))) : list (list (list B)) :=
  map (map (map f)) t.

(** [np.expand_dims(a, axis=0)] *)
Definition expand_dims0 {A} (a : A) : list A := [a].

(** Scan for the first maximum: [best] is the index of the largest value
    [bv] seen so far, [i] the index of the head of [l]. *)
Fixpoint argmax_from (i best : nat) (bv : Q) (l : list Q) : nat :=
  match l with
  | [] => best
  | x :: l' =>
      if Qlt_le_dec bv x then argmax_from (S i) i x l'
      else argmax_from (S i) best bv l'
  end.

(** [np.argmax(a)]: the index, in the flattened array, of the first
    occurrence of the maximum; an empty array is a [ValueError]. *)
Definition argmax (a : list (list Q)) : result Z :=
  match concat a with
  | [] => Raise (ValueError "attempt to get argmax of an empty sequence")
  | x :: l => Ok (Z.of_nat (argmax_from 1 0 x l))
  end.

End Np.

(** ** Images and models *)

(** A PIL image in mode RGB: rows of pixels. *)
Definition rgb : Type := (byte * byte * byte)%type.
Abbreviation pil_image := (list (list rgb)).

(** [np.array(image)]: a height x width x 3 array of [uint8]. *)
Definition np_array (image_data : pil_image) : list (list (list byte)) :=
  map (map (fun p : rgb => let '(r, g, b) := p in [r; g; b])) image_data.

(** A float tensor of rank 3 (height x width x channels) and a batch of them. *)
Abbreviation tensor3 := (list (list (list Q))).
Abbreviation batch := (list (list (list (list Q)))).

(** A loaded Keras model: [model.predict] maps a batch to one row of class
    scores per batch element, or raises. *)
Record keras_model := KerasModel {
  predict : batch -> result (list (list Q))
}.

Definition class_names : list string := ["real"; "fake"].

(** ** Classifier adapter *)

Definition predictions (image_data : pil_image) (model : keras_model)
  : result (Z * list (list Q)) :=
  let img_array := np_array image_data in
  let img_array1 := Np.map3 (fun v => Np.of_uint8 v / 255)%Q img_array in
  let img_batch := Np.expand_dims0 img_array1 in
  (prediction <- predict model img_batch ;;
   class_label <- Np.argmax prediction ;;
   Ok (class_label, prediction))%py.

(** ** The world: file system and Streamlit page *)

(** Content of a file, decoded: what [librosa.load] or PIL would read from
    it. *)
Inductive file : Type :=
| WavFile (y : list Q) (sr : Z)
| PngFile (img : pil_image)
| RawFile (data : list byte).

(** What [imshow] is given: a PIL image or an array. *)
Inductive picture : Type :=
| PicImage (img : pil_image)
| PicFloat (a : tensor3)
| PicUint8 (a : list (list (list byte))).

Record axes := Axes { shown : picture; title : string }.
Abbreviation figure := (list axes).

(** Elements put on the Streamlit page, oldest first: what the display
    calls write and the widgets that are rendered.  [st.spinner] shows its
    message only while its block runs and leaves nothing on the page. *)
Inductive st_event : Type :=
| StWrite (s : string)
| StSubheader (s : string)
| StInfo (s : string)
| StError (s : string)
| StAudio (content : file)
| StImage (img : pil_image)
| StPyplot (fig : figure)
| StFileUploader (label : string)
| StButton (label : string).

(** The working directory of the process, the file system and the page.  The
    file system maps the canonical absolute path of a file to its content, so
    two spellings of one path are one key.  Writing is taken to succeed: the
    directories written to exist and are writable, and no path written is a
    directory. *)
Record world := World {
  cwd : string;
  fs : gmap string file;
  page : list st_event
}.

Definition M (A : Type) : Type := world -> result A * world.

Definition ret {A} (a : A) : M A := fun w => (Ok a, w).
Definition throw {A} (e : exn) : M A := fun w => (Raise e, w).
Definition bindM {A B} (m : M A) (k : A -> M B) : M B :=
  fun w =>
    match m w with
    | (Ok a, w') => k a w'
    | (Raise e, w') => (Raise e, w')
    end.
Definition lift {A} (r : result A) : M A := fun w => (r, w).

Declare Scope io_scope.
Delimit Scope io_scope with io.
Notation "x <- m ;; k" := (bindM m (fun x => k))
  (at level 100, m at next level, right associativity) : io_scope.
Notation "m ;; k" := (bindM m (fun _ => k))
  (at level 100, right associativity) : io_scope.

Definition st_emit (ev : st_event) : M unit :=
  fun w => (Ok tt, World (cwd w) (fs w) (page w ++ [ev])).

(** [st.stop()] ends the script run by raising [StopException]. *)
Definition StopException : exn := Exn "StopException" "".
Definition st_stop {A} : M A := throw StopException.

(** [open(path, 'wb').write(content)] *)
Definition write_file (path : string) (content : file) : M unit :=
  fun w =>
    (Ok tt, World (cwd w) (<[Os.resolve (cwd w) path := content]> (fs w)) (page w)).

(** [librosa.load(path, sr=None)]: the samples and the native sampling rate
    of an audio file. *)
Definition librosa_load (path : string) : M (list Q * Z) :=
  fun w =>
    match fs w !! Os.resolve (cwd w) path with
    | None => (Raise (FileNotFoundError path), w)
    | Some (WavFile y sr) => (Ok (y, sr), w)
    | Some _ => (Raise (Exn "NoBackendError" path), w)
    end.

(** PIL's nearest-neighbour resampling: output pixel [(i, j)] is the source
    pixel under its centre. *)
Definition src_index (i n_dst n_src : nat) : nat :=
  ((2 * i + 1) * n_src) / (2 * n_dst).

Definition resize_nearest {A} (d : A) (h w : nat) (img : list (list A))
  : list (list A) :=
  map (fun i =>
         let row := nth (src_index i h (length img)) img [] in
         map (fun j => nth (src_index j w (length row)) row d) (seq 0 w))
      (seq 0 h).

Definition black : rgb := (x00, x00, x00)%byte.

(** [load_img(path, target_size=(h, w))]: open the image, convert it to RGB
    and resize it to the target size (Keras resamples with "nearest"). *)
Definition load_img (path : string) (target_size : nat * nat) : M pil_image :=
  fun w =>
    match fs w !! Os.resolve (cwd w) path with
    | None => (Raise (FileNotFoundError path), w)
    | Some (PngFile img) =>
        (Ok (resize_nearest black (fst target_size) (snd target_size) img), w)
    | Some _ => (Raise (Exn "UnidentifiedImageError" path), w)
    end.

(** ** TensorFlow floats *)

Module TF.

(** A float: a finite value, an infinity or NaN.  Zero is unsigned. *)
Inductive tfloat : Type :=
| Fin (q : Q)
| PInf
| NInf
| NaN.

Definition sign_of (q : Q) : comparison := (q ?= 0)%Q.

Definition fadd (a b : tfloat) : tfloat :=
  match a, b with
  | NaN, _ | _, NaN => NaN
  | Fin x, Fin y => Fin (x + y)
  | PInf, NInf | NInf, PInf => NaN
  | PInf, _ | _, PInf => PInf
  | NInf, _ | _, NInf => NInf
  end.

Definition inf_of (c : comparison) : tfloat :=
  match c with
  | Gt => PInf
  | Lt => NInf
  | Eq => NaN
  end.

Definition sign_tf (a : tfloat) : comparison :=
  match a with
  | Fin x => sign_of x
  | PInf => Gt
  | NInf => Lt
  | NaN => Eq
  end.

Definition sign_mul (c d : comparison) : comparison :=
  match c, d with
  | Eq, _ | _, Eq => Eq
  | Gt, Gt | Lt, Lt => Gt
  | _, _ => Lt
  end.

Definition fmul (a b : tfloat) : tfloat :=
  match a, b with
  | NaN, _ | _, NaN => NaN
  | Fin x, Fin y => Fin (x * y)
  | _, _ => inf_of (sign_mul (sign_tf a) (sign_tf b))
  end.

(** Division: [0/0] and [inf/inf] are NaN, [x/0] is an infinity. *)
Definition fdiv (a b : tfloat) : tfloat :=
  match a, b with
  | NaN, _ | _, NaN => NaN
  | Fin x, Fin y =>
      if Qeq_bool y 0 then inf_of (sign_of x) else Fin (x / y)
  | Fin _, _ => Fin 0
  | _, Fin y =>
      match sign_of y with
      | Lt => inf_of (sign_mul (sign_tf a) Lt)
      | _ => a
      end
  | _, _ => NaN
  end.

(** [tf.maximum] *)
Definition fmaximum (a b : tfloat) : tfloat :=
  match a, b with
  | NaN, _ | _, NaN => NaN
  | PInf, _ | _, PInf => PInf
  | NInf, c | c, NInf => c
  | Fin x, Fin y => Fin (Qmax x y)
  end.

Definition fsum (l : list tfloat) : tfloat := fold_right fadd (Fin 0) l.

(** [tf.math.reduce_max] over all axes; the maximum of nothing is
    [-inf]. *)
Definition reduce_max (t : list (list tfloat)) : tfloat :=
  fold_right fmaximum NInf (concat t).

(** [tf.reduce_mean(grads, axis=(0, 1, 2))]: one mean per channel. *)
Definition reduce_mean_012 (grads : list tensor3) : list tfloat :=
  let pixels := concat (concat grads) in
  let channels := length (hd [] pixels) in
  let count := Fin (inject_Z (Z.of_nat (length pixels))) in
  let sums := fold_right (zip_with Qplus) (replicate channels 0%Q) pixels in
  map (fun s => fdiv (Fin s) count) sums.

(** [squeeze(a @ w[..., newaxis])]: at each position the sum over the
    channels of activation times weight. *)
Definition weighted_sum (a : tensor3) (w : list tfloat) : list (list tfloat) :=
  map (map (fun px => fsum (zip_with (fun v wc => fmul (Fin v) wc) px w))) a.

(** [tf.maximum(heatmap, 0) / tf.math.reduce_max(heatmap)] *)
Definition normalize (heatmap : list (list tfloat)) : list (list tfloat) :=
  let m := reduce_max heatmap in
  map (map (fun v => fdiv (fmaximum v (Fin 0)) m)) heatmap.

End TF.
Import TF.

(** ** LIME *)

Module Lime.

(** A superpixel segmentation: the region id of every pixel. *)
Abbreviation segmentation := (list (list nat)).

Definition region_ids (segments : segmentation) : list nat :=
  remove_dups (concat segments).

(** The fitted surrogate: per class label, the weight of each region. *)
Record explanation := Explanation {
  exp_image : tensor3;
  segments : segmentation;
  local_exp : Z -> list (nat * Q)
}.

Definition SegmentationError : exn := Exn "SegmentationError" "no region".
Definition InsufficientSamplesError : exn :=
  Exn "InsufficientSamplesError" "num_samples < R + 1".

(** Modelled from the spec: [LimeImageExplainer.explain_instance] is not in
    the program's source.  Steps 1 to 4 of the perturbation explainer:
    segment the image into R regions, sample [num_samples] perturbations and
    fit the local surrogate, which gives every region of the segmentation a
    signed weight per class.  The superpixel algorithm and the sampling and
    regression are the parameters [segmentation_fn] and [fit]; R = 0 fails
    with [SegmentationError] and [num_samples < R + 1] with
    [InsufficientSamplesError]. *)
Definition explain_instance
    (segmentation_fn : tensor3 -> segmentation)
    (fit : tensor3 -> (batch -> result (list (list Q))) -> segmentation ->
           Q -> nat -> result (Z -> nat -> Q))
    (image : tensor3) (classifier_fn : batch -> result (list (list Q)))
    (hide_color : Q) (num_samples : nat) : result explanation :=
  let segments := segmentation_fn image in
  let regions := region_ids segments in
  if (length regions =? 0)%nat then Raise SegmentationError
  else if (num_samples <? length regions + 1)%nat then Raise InsufficientSamplesError
  else
    (coef <- fit image classifier_fn segments hide_color num_samples ;;
     Ok (Explanation image segments
           (fun label => map (fun r => (r, coef label r)) regions)))%py.

(** [a] ranks before [b] when its weight is at least as large in
    magnitude. *)
Definition outranks (a b : nat * Q) : Prop := (Qabs (snd b) <= Qabs (snd a))%Q.

#[global] Instance outranks_dec a b : Decision (outranks a b).
Proof.
  unfold outranks.
  destruct (Qlt_le_dec (Qabs (snd a)) (Qabs (snd b))) as [Hlt | Hle].
  - right. intros H. exact (Qlt_not_le _ _ Hlt H).
  - left. exact Hle.
Defined.

Definition is_positive (p : nat * Q) : bool := negb (Qle_bool (snd p) 0).

(** Modelled from the spec: step 5 of the perturbation explainer, which is
    not in the program's source.  Rank the regions by the magnitude of their
    weight, keep the positively contributing ones only when [positive_only],
    and select the first [num_features]. *)
Definition selected_regions (e : explanation) (label : Z)
    (positive_only : bool) (num_features : nat) : list nat :=
  let ranked := merge_sort outranks (local_exp e label) in
  let candidates := if positive_only then List.filter is_positive ranked else ranked in
  map fst (firstn num_features candidates).

(** Modelled from the spec: [explanation.get_image_and_mask], which is not in
    the program's source.  The mask is 1 on the pixels of the selected regions
    and 0 elsewhere; with [hide_rest] the other pixels of the returned image
    are blanked. *)
Definition get_image_and_mask (e : explanation) (label : Z)
    (positive_only : bool) (num_features : nat) (hide_rest : bool)
  : tensor3 * list (list Z) :=
  let selected := selected_regions e label positive_only num_features in
  let mask :=
    map (map (fun r => if bool_decide (r ∈ selected) then 1%Z else 0%Z)) (segments e) in
  let temp :=
    if hide_rest then
      zip_with (zip_with (fun px m => if (m =? 0)%Z then map (fun _ => 0%Q) px else px))
               (exp_image e) mask
    else exp_image e in
  (temp, mask).

(** The region ids that appear in a mask: those of the pixels where the
    mask is not zero. *)
Definition mask_regions (segments : segmentation) (mask : list (list Z)) : list nat :=
  map fst (List.filter (fun rm : nat * Z => negb (snd rm =? 0)%Z)
             (combine (concat segments) (concat mask))).

End Lime.

(** ** Library calls the program passes through *)

Abbreviation matrix := (list (list Q)).

Record Libs := {
  (** [librosa.feature.melspectrogram(y=y, sr=sr)] *)
  melspectrogram : list Q -> Z -> result matrix;
  (** [librosa.power_to_db(ms, ref=np.max)] *)
  power_to_db : matrix -> result matrix;
  (** the raster that [savefig] writes for the 4x4-inch figure holding
      [specshow(log_ms, sr=sr)] with the axes off and no padding *)
  render_specshow : matrix -> Z -> result pil_image;
  (** [tf.keras.models.load_model(path)] *)
  load_model : string -> result keras_model;
  (** the superpixel algorithm of LIME *)
  segmentation_fn : tensor3 -> Lime.segmentation;
  (** sampling and surrogate regression of LIME *)
  fit_surrogate : tensor3 -> (batch -> result (list (list Q))) ->
                  Lime.segmentation -> Q -> nat -> result (Z -> nat -> Q);
  (** [skimage.segmentation.mark_boundaries(image, mask)] *)
  mark_boundaries : tensor3 -> list (list Z) -> tensor3;
  (** VGG16 with ImageNet weights, cut at [block5_conv3]: the activations of
      that layer and the class scores, for a batch *)
  grad_model : batch -> result (list tensor3 * list (list Q));
  (** [tape.gradient(class_channel, last_conv_layer_output)] for the class
      channel [class_idx] of the scores of [x] *)
  tape_gradient : batch -> Z -> result (list tensor3);
  (** [cv2.resize(src, (width, height))] *)
  cv2_resize : list (list tfloat) -> nat -> nat -> list (list tfloat);
  (** [np.uint8(255 * heatmap)], [cv2.applyColorMap(.., COLORMAP_JET)] and
      [cv2.addWeighted(np.uint8(x0), 0.6, .., 0.4, 0)] *)
  colorize_blend : list (list tfloat) -> tensor3 -> list (list (list byte))
}.

(** ** Feature extractor *)

Definition save_file (name : string) (content : file) : M string :=
  (write_file (os_path_join "audio_files" name) content ;;
   ret name)%io.

Definition create_spectrogram (L : Libs) (sound : string) : M pil_image :=
  let audio_file := os_path_join "audio_files" sound in
  (ysr <- librosa_load audio_file ;;
   let '(y, sr) := ysr in
   ms <- lift (melspectrogram L y sr) ;;
   log_ms <- lift (power_to_db L ms) ;;
   png <- lift (render_specshow L log_ms sr) ;;
   write_file "melspectrogram.png" (PngFile png) ;;
   image_data <- load_img "melspectrogram.png" (224, 224)%nat ;;
   st_emit (StImage image_data) ;;
   ret image_data)%io.

(** ** Perturbation explainer *)

(** What [lime_predict] computes before it draws: the explanation, the class
    label it explains, and the image and mask of the selected regions. *)
Record lime_parts := LimeParts {
  lime_explanation : Lime.explanation;
  lime_class_label : Z;
  lime_temp : tensor3;
  lime_mask : list (list Z)
}.

Definition lime_explain (L : Libs) (image_data : pil_image) (model : keras_model)
  : result lime_parts :=
  let img_array := np_array image_data in
  let img_array1 := Np.map3 (fun v => Np.of_uint8 v / 255)%Q img_array in
  let img_batch := Np.expand_dims0 img_array1 in
  (explanation <- Lime.explain_instance (segmentation_fn L) (fit_surrogate L)
                    img_array1 (predict model) 0%Q 1000%nat ;;
   prediction <- predict model img_batch ;;
   class_label <- Np.argmax prediction ;;
   let tm := Lime.get_image_and_mask explanation class_label false 8%nat true in
   Ok (LimeParts explanation class_label (fst tm) (snd tm)))%py.

Definition lime_predict (L : Libs) (image_data : pil_image) (model : keras_model)
  : M figure :=
  (parts <- lift (lime_explain L image_data model) ;;
   name <- lift (getitem class_names (lime_class_label parts)) ;;
   let fig :=
     [ Axes (PicImage image_data) "Original Image";
       Axes (PicFloat (mark_boundaries L (lime_temp parts) (lime_mask parts)))
            ("Predicted class: " +:+ name) ] in
   st_emit (StPyplot fig) ;;
   ret fig)%io.

(** ** Gradient explainer *)

(** [img_to_array(image)]: the pixels as floats. *)
Definition img_to_array (image_data : pil_image) : tensor3 :=
  Np.map3 Np.of_uint8 (np_array image_data).

(** [vgg16.preprocess_input]: RGB to BGR, then subtract the ImageNet channel
    means. *)
Definition vgg16_preprocess_input (x : batch) : batch :=
  map (map (map (fun px =>
    zip_with Qminus (rev px) [103939 # 1000; 116779 # 1000; 12368 # 100]%Q))) x.

(** [preds[:, i]] on a tensor: the column [i] of every row. *)
Definition tf_column (preds : list (list Q)) (i : Z) : result (list Q) :=
  fold_right
    (fun row acc =>
       match getitem row i with
       | Ok v => (r <- acc ;; Ok (v :: r))%py
       | Raise _ => Raise (Exn "InvalidArgumentError" "slice index out of bounds")
       end)
    (Ok []) preds.

(** The normalized class-activation map: lines 96 to 102 of [grad_predict]. *)
Definition grad_cam (last_conv_layer_output : tensor3) (grads : list tensor3)
  : list (list tfloat) :=
  let pooled_grads := reduce_mean_012 grads in
  let heatmap := weighted_sum last_conv_layer_output pooled_grads in
  normalize heatmap.

(** The map resized to the input resolution: line 105. *)
Definition upsampled_heatmap (L : Libs) (x : batch) (heatmap : list (list tfloat))
  : list (list tfloat) :=
  let x0 := nth 0%nat x [] in
  cv2_resize L heatmap (length (nth 0%nat x0 [])) (length x0).

Definition grad_predict (L : Libs) (image_data : pil_image) (model : keras_model)
    (preds : list (list Q)) (class_idx : Z) : M (list (list (list byte))) :=
  let img_array := img_to_array image_data in
  let x := Np.expand_dims0 img_array in
  let x := vgg16_preprocess_input x in
  (out <- lift (grad_model L x) ;;
   let last_conv_layer_output := fst out in
   let preds := snd out in
   class_channel <- lift (tf_column preds class_idx) ;;
   grads <- lift (tape_gradient L x class_idx) ;;
   last_conv_layer_output <- lift (getitem last_conv_layer_output 0%Z) ;;
   let heatmap := grad_cam last_conv_layer_output grads in
   let heatmap := upsampled_heatmap L x heatmap in
   let superimposed_img := colorize_blend L heatmap (nth 0%nat x []) in
   name <- lift (getitem class_names class_idx) ;;
   let fig :=
     [ Axes (PicImage image_data) "Original Image";
       Axes (PicUint8 superimposed_img) ("Grad-CAM: " +:+ name) ] in
   st_emit (StPyplot fig) ;;
   ret superimposed_img)%io.

(** ** Orchestrator *)

(** The file handed over by [st.file_uploader]. *)
Record uploaded := Uploaded { name : string; getbuffer : file }.

(** [try: m except Exception as e: handler(e)] *)
Definition try_except {A} (m : M A) (handler : exn -> M A) : M A :=
  fun w =>
    match m w with
    | (Ok a, w') => (Ok a, w')
    | (Raise e, w') => handler e w'
    end.

(** [homepage]: [uploaded_file] is what [st.file_uploader] returns and
    [show_xai] what [st.button('Show XAI Metrics')] returns in this run; both
    widgets are rendered where they are called. *)
Definition homepage (L : Libs) (uploaded_file : option uploaded) (show_xai : bool)
  : M unit :=
  (st_emit (StWrite "___") ;;
   st_emit (StSubheader "Choose a wav file") ;;
   st_emit (StFileUploader "Upload .wav audio file") ;;
   match uploaded_file with
   | Some f =>
       st_emit (StWrite "### Play audio") ;;
       st_emit (StAudio (getbuffer f)) ;;
       save_file (name f) (getbuffer f) ;;
       let sound := name f in
       model <- try_except
                  (lift (load_model L "saved_model/model/saved_model.pb"))
                  (fun e =>
                     st_emit (StError ("Failed to load model: " +:+ exn_msg e)) ;;
                     st_stop) ;;
       spec <- create_spectrogram L sound ;;
       st_emit (StWrite "### Classification results:") ;;
       cp <- lift (predictions spec model) ;;
       let class_label := fst cp in
       let prediction := snd cp in
       label_name <- lift (getitem class_names class_label) ;;
       st_emit (StWrite ("#### The uploaded audio file is **" +:+ label_name +:+ "**")) ;;
       st_emit (StButton "Show XAI Metrics") ;;
       if show_xai then
         st_emit (StWrite "### XAI Metrics using LIME") ;;
         lime_predict L spec model ;;
         st_emit (StWrite "### XAI Metrics using Grad-CAM") ;;
         grad_predict L spec model prediction class_label ;;
         ret tt
       else ret tt
   | None => st_emit (StInfo "Please upload a .wav file")
   end)%io.

(** ** A small stand-in for the libraries

    Total, computable instances of the library calls, on which the program
    can be run. *)

Module Stub.

Definition amin : Q := 1 # 10000000000.

Definition matrix_max (ms : matrix) : Q := fold_right Qmax 0%Q (concat ms).

(** A two-class model that scores every image alike. *)
Definition model : keras_model :=
  KerasModel (fun b => Ok (map (fun _ => [3 # 10; 7 # 10]%Q) b)).

Definition shade (v : Q) : rgb :=
  if Qle_bool 0 v then (xff, xff, x00)%byte else (x00, x00, x40)%byte.

Definition libs : Libs := {|
  melspectrogram y sr :=
    match y with
    | [] => Raise (Exn "ParameterError" "empty signal")
    | _ => Ok [map (fun v => v * v)%Q y]
    end;
  power_to_db ms :=
    let ref := Qmax amin (matrix_max ms) in
    Ok (map (map (fun p => Qmax amin p - ref)%Q) ms);
  render_specshow log_ms sr := Ok (map (map shade) log_ms);
  load_model _ := Ok model;
  segmentation_fn image := map (map (fun _ => 0%nat)) image;
  fit_surrogate _ _ _ _ _ := Ok (fun _ _ => 1%Q);
  mark_boundaries image _ := image;
  grad_model x :=
    Ok (map (fun _ => [[[1; 0]; [0; 1]]; [[1; 1]; [0; 0]]]%Q) x,
        map (fun _ => repeat (1 # 1000)%Q 1000) x);
  tape_gradient x _ :=
    Ok (map (fun _ => [[[1; -1]; [1; -1]]; [[1; -1]; [1; -1]]]%Q) x);
  cv2_resize src width height := resize_nearest (Fin 0) height width src;
  colorize_blend heatmap _ :=
    map (map (fun v => match v with
                       | Fin _ => [xff; x00; x00]%byte
                       | _ => [x00; x00; x00]%byte
                       end)) heatmap
|}.

(** The same libraries with a model file that cannot be loaded. *)
Definition load_error : exn := Exn "OSError" "SavedModel file does not exist".

Definition libs_no_model : Libs := {|
  melspectrogram := melspectrogram libs;
  power_to_db := power_to_db libs;
  render_specshow := render_specshow libs;
  load_model _ := Raise load_error;
  segmentation_fn := segmentation_fn libs;
  fit_surrogate := fit_surrogate libs;
  mark_boundaries := mark_boundaries libs;
  grad_model := grad_model libs;
  tape_gradient := tape_gradient libs;
  cv2_resize := cv2_resize libs;
  colorize_blend := colorize_blend libs
|}.

(** One second of silence and one second of a 4 kHz sine, both sampled at
    16 kHz: the sine takes the values 0, 1, 0, -1 in turn. *)
Definition silent : list Q := replicate 16000 0%Q.
Definition tone : list Q := concat (replicate 4000 [0; 1; 0; -1]%Q).

(** An upload of the tone. *)
Definition upload : uploaded := Uploaded "tone.wav" (WavFile tone 16000).

(** A world holding the two recordings. *)
Definition world0 : world :=
  World "/app"
        (<["/app/audio_files/silent.wav" := WavFile silent 16000]>
           (<["/app/audio_files/tone.wav" := WavFile tone 16000]> ∅))
        [].

Definition pixel : pil_image := [[(xff, x80, x00)%byte]].

(** Another world with the same recordings: one more file, an older
    spectrogram and a page that already shows something. *)
Definition world1 : world :=
  World "/app"
        (<["/app/notes.txt" := RawFile [x68; x69]%byte]>
           (<["/app/melspectrogram.png" := PngFile pixel]> (fs world0)))
        [StWrite "earlier run"].

(** A 224x224 image of one colour. *)
Definition blank : pil_image := replicate 224 (replicate 224 black).

End Stub.

(** ** Specification vocabulary *)

Definition in_unit (q : Q) : Prop := (0 <= q <= 1)%Q.

Definition all3 (P : Q -> Prop) (t : tensor3) : Prop :=
  Forall (Forall (Forall P)) t.

(** The image as the classifier receives it: every channel value divided by
    255, nothing else. *)
Definition rescaled (image_data : pil_image) : tensor3 :=
  Np.map3 (fun v => Np.of_uint8 v / 255)%Q (np_array image_data).

(** [i] is the index of the first occurrence of the maximum of [l]. *)
Definition first_max (l : list Q) (i : nat) : Prop :=
  exists v, l !! i = Some v /\
    (forall j w, l !! j = Some w -> (w <= v)%Q) /\
    (forall j w, (j < i)%nat -> l !! j = Some w -> (w < v)%Q).

(** The explanation of [Stub.pixel] under [Stub.libs]: one region, of weight 1. *)
Definition pixel_explanation : Lime.explanation :=
  Lime.Explanation (rescaled Stub.pixel) [[0%nat]]
    (fun label => map (fun r => (r, 1%Q)) [0%nat]).

(** The stand-in libraries with a segmentation that makes every pixel a
    region of its own, numbered row by row, and a surrogate whose weight for
    region [r] is [r - 5]. *)
Definition libs_pixel_regions : Libs := {|
  melspectrogram := melspectrogram Stub.libs;
  power_to_db := power_to_db Stub.libs;
  render_specshow := render_specshow Stub.libs;
  load_model := load_model Stub.libs;
  segmentation_fn image :=
    imap (fun i row => imap (fun j _ => (i * length row + j)%nat) row) image;
  fit_surrogate _ _ _ _ _ := Ok (fun _ r => (inject_Z (Z.of_nat r) - 5)%Q);
  mark_boundaries := mark_boundaries Stub.libs;
  grad_model := grad_model Stub.libs;
  tape_gradient := tape_gradient Stub.libs;
  cv2_resize := cv2_resize Stub.libs;
  colorize_blend := colorize_blend Stub.libs
|}.

(** A picture of three rows of four pixels, hence twelve regions with the
    weights -5 .. 6, and what [lime_predict] computes for it: the eight
    regions of largest magnitude are 11, 10, 0, 9, 1, 8, 2 and 3, that is
    the first and the last row. *)
Definition strip : pil_image := replicate 3 (replicate 4 (xff, x80, x00)%byte).

Definition strip_explanation : Lime.explanation :=
  Lime.Explanation (rescaled strip)
    [[0; 1; 2; 3]; [4; 5; 6; 7]; [8; 9; 10; 11]]%nat
    (fun label => map (fun r => (r, (inject_Z (Z.of_nat r) - 5)%Q)) (seq 0 12)).

Definition strip_parts : lime_parts :=
  LimeParts strip_explanation 1%Z
    [ replicate 4 [255 # 255; 128 # 255; 0 # 255]%Q;
      replicate 4 [0; 0; 0]%Q;
      replicate 4 [255 # 255; 128 # 255; 0 # 255]%Q ]
    [ [1; 1; 1; 1]; [0; 0; 0; 0]; [1; 1; 1; 1] ]%Z.

(** ** The feature extractor's vocabulary *)

(** The file [create_spectrogram] reads for a name, and the file the drawing
    goes through. *)
Definition audio_path (w : world) (sound : string) : string :=
  Os.resolve (cwd w) (os_path_join "audio_files" sound).
Definition png_path (w : world) : string :=
  Os.resolve (cwd w) "melspectrogram.png".

(** The library calls of [create_spectrogram], in order: mel spectrogram,
    decibel scaling, drawing. *)
Definition library_pipeline (L : Libs) (y : list Q) (sr : Z) : result pil_image :=
  (ms <- melspectrogram L y sr ;;
   log_ms <- power_to_db L ms ;;
   render_specshow L log_ms sr)%py.

(** A silent waveform: every sample is zero. *)
Definition is_silent (y : list Q) : Prop := Forall (fun v => v == 0)%Q y.

(** The contract assumed of librosa and matplotlib: a non-empty signal with a
    positive sampling rate is transformed and drawn without error. *)
Definition libraries_accept_audio (L : Libs) : Prop :=
  forall y sr, y <> [] -> (0 < sr)%Z -> exists png, library_pipeline L y sr = Ok png.

(** ** The gradient explainer's vocabulary *)

Definition is_zero (v : tfloat) : Prop := exists q, v = Fin q /\ (q == 0)%Q.
Definition nonpositive (v : tfloat) : Prop := exists q, v = Fin q /\ (q <= 0)%Q.
Definition finite (v : tfloat) : Prop := exists q, v = Fin q.
Definition unit_value (v : tfloat) : Prop := exists q, v = Fin q /\ in_unit q.

(** The contract assumed of [cv2.resize]: the result has the requested
    height and width. *)
Definition cv2_resize_contract (L : Libs) : Prop :=
  forall src width height,
    length (cv2_resize L src width height) = height /\
    Forall (fun row => length row = width) (cv2_resize L src width height).

(** Activations of [block5_conv3] (14 x 14 positions, 512 channels), all 1,
    and a gradient that vanishes everywhere, as when the class score is
    saturated. *)
Definition flat_activations : tensor3 :=
  replicate 14 (replicate 14 (replicate 512 1%Q)).
Definition vanishing_gradient : list tensor3 :=
  [replicate 14 (replicate 14 (replicate 512 0%Q))].

(** ** The orchestrator's vocabulary *)

Definition emit (w : world) (ev : st_event) : world :=
  World (cwd w) (fs w) (page w ++ [ev]).

Definition model_path : string := "saved_model/model/saved_model.pb".

(** The world once the upload has been played and saved. *)
Definition after_upload (f : uploaded) (w : world) : world :=
  let w := emit (emit w (StWrite "___")) (StSubheader "Choose a wav file") in
  let w := emit w (StFileUploader "Upload .wav audio file") in
  let w := emit (emit w (StWrite "### Play audio")) (StAudio (getbuffer f)) in
  World (cwd w) (<[audio_path w (name f) := getbuffer f]> (fs w)) (page w).

(** The line that reports the classification. *)
Definition report (label_name : string) : st_event :=
  StWrite ("#### The uploaded audio file is **" +:+ label_name +:+ "**").

(** The world once the classification has been reported and the button
    rendered. *)
Definition after_report (w : world) (label_name : string) : world :=
  emit (emit (emit w (StWrite "### Classification results:")) (report label_name))
       (StButton "Show XAI Metrics").

(** ** Probability vectors and conforming models *)

Definition Qsum (l : list Q) : Q := fold_right Qplus 0%Q l.

(** Non-negative entries that sum to 1 within 1e-5. *)
Definition valid_probabilities (p : list Q) : Prop :=
  Forall (fun v => (0 <= v)%Q) p /\ (Qabs (Qsum p - 1) <= 1 # 100000)%Q.

(** A spectral image: 224 rows of 224 pixels. *)
Definition is_spectral_image (image_data : pil_image) : Prop :=
  length image_data = 224%nat /\ Forall (fun row => length row = 224%nat) image_data.

Definition shape_224_224_3 (x : tensor3) : Prop :=
  length x = 224%nat /\
  Forall (fun row => length row = 224%nat /\ Forall (fun px => length px = 3%nat) row) x.

(** A conforming backend: on a batch of one 224x224x3 tensor with values in
    [0,1] it returns one probability vector over the class vocabulary. *)
Definition conforming (model : keras_model) : Prop :=
  forall x : tensor3,
    shape_224_224_3 x -> all3 in_unit x ->
    exists p, predict model [x] = Ok [p] /\
              length p = length class_names /\ valid_probabilities p.

(** ** Further vocabulary: runs on the stand-in libraries *)

(** What [Stub.libs] draws for [Stub.tone], the image read back from it and
    the world that [create_spectrogram] leaves. *)
Definition tone_png : pil_image :=
  [concat (replicate 4000 [(x00, x00, x40); (xff, xff, x00);
                           (x00, x00, x40); (xff, xff, x00)]%byte)].
Definition tone_image : pil_image := resize_nearest black 224 224 tone_png.
Definition tone_world : world :=
  World "/app"
        (<["/app/melspectrogram.png" := PngFile tone_png]> (fs Stub.world0))
        (page Stub.world0 ++ [StImage tone_image]).


(** A model whose output is empty, and a model with three classes. *)
Definition empty_model : keras_model := KerasModel (fun _ => Ok []).
Definition three_class_model : keras_model :=
  KerasModel (fun b => Ok (map (fun _ => [1 # 10; 2 # 10; 7 # 10]%Q) b)).

Definition negative (v : tfloat) : Prop := exists q, v = Fin q /\ (q < 0)%Q.
Definition is_one (v : tfloat) : Prop := exists q, v = Fin q /\ (q == 1)%Q.

(** Lines 83 to 109 of [grad_predict]: everything before the figure is
    drawn. *)
Definition grad_overlay (L : Libs) (image_data : pil_image) (class_idx : Z)
  : result (list (list (list byte))) :=
  let img_array := img_to_array image_data in
  let x := Np.expand_dims0 img_array in
  let x := vgg16_preprocess_input x in
  (out <- grad_model L x ;;
   class_channel <- tf_column (snd out) class_idx ;;
   grads <- tape_gradient L x class_idx ;;
   last_conv_layer_output <- getitem (fst out) 0%Z ;;
   let heatmap := grad_cam last_conv_layer_output grads in
   let heatmap := upsampled_heatmap L x heatmap in
   Ok (colorize_blend L heatmap (nth 0%nat x [])))%py.

(** A rectangular image of [h] rows and [wd] columns. *)
Definition has_size (image_data : pil_image) (h wd : nat) : Prop :=
  length image_data = h /\ Forall (fun row => length row = wd) image_data.

(** Small activations and gradients on which the class-activation map is
    computed by hand: the weighted sum is [[1; -1]; [0; 0]]. *)
Definition small_activations : tensor3 := [[[1; 0]; [0; 1]]; [[1; 1]; [0; 0]]]%Q.
Definition small_gradient : list tensor3 :=
  [[[[1; -1]; [1; -1]]; [[1; -1]; [1; -1]]]%Q].

(** What [grad_predict] returns for [Stub.pixel] under [Stub.libs]. *)
Definition pixel_overlay : list (list (list byte)) := [[[xff; x00; x00]%byte]].

(** A picture of two rows and three columns. *)
Definition wide_picture : pil_image := replicate 2 (replicate 3 black).

(** [w'] shows everything [w] shows, in the same order, and possibly more. *)
Definition page_extends (w w' : world) : Prop :=
  exists evs, page w' = page w ++ evs.

(** The stand-in libraries with a surrogate regression that fails, and with
    a model of three classes. *)
Definition lime_error : exn := Exn "RuntimeError" "regression failed".

Definition libs_no_lime : Libs := {|
  melspectrogram := melspectrogram Stub.libs;
  power_to_db := power_to_db Stub.libs;
  render_specshow := render_specshow Stub.libs;
  load_model := load_model Stub.libs;
  segmentation_fn := segmentation_fn Stub.libs;
  fit_surrogate _ _ _ _ _ := Raise lime_error;
  mark_boundaries := mark_boundaries Stub.libs;
  grad_model := grad_model Stub.libs;
  tape_gradient := tape_gradient Stub.libs;
  cv2_resize := cv2_resize Stub.libs;
  colorize_blend := colorize_blend Stub.libs
|}.

Definition libs_three_classes : Libs := {|
  melspectrogram := melspectrogram Stub.libs;
  power_to_db := power_to_db Stub.libs;
  render_specshow := render_specshow Stub.libs;
  load_model _ := Ok three_class_model;
  segmentation_fn := segmentation_fn Stub.libs;
  fit_surrogate := fit_surrogate Stub.libs;
  mark_boundaries := mark_boundaries Stub.libs;
  grad_model := grad_model Stub.libs;
  tape_gradient := tape_gradient Stub.libs;
  cv2_resize := cv2_resize Stub.libs;
  colorize_blend := colorize_blend Stub.libs
|}.

(** The world once [Stub.upload] has been saved from [Stub.world0], and once
    its spectrogram has been made. *)
Definition uploaded_world : world := after_upload Stub.upload Stub.world0.
Definition uploaded_tone_world : world :=
  World "/app"
        (<["/app/melspectrogram.png" := PngFile tone_png]> (fs uploaded_world))
        (page uploaded_world ++ [StImage tone_image]).

(** The stand-in libraries with a segmentation of one region whatever the
    image, and a full run with the XAI button on them. *)
Definition libs_one_region : Libs := {|
  melspectrogram := melspectrogram Stub.libs;
  power_to_db := power_to_db Stub.libs;
  render_specshow := render_specshow Stub.libs;
  load_model := load_model Stub.libs;
  segmentation_fn _ := [[0%nat]];
  fit_surrogate := fit_surrogate Stub.libs;
  mark_boundaries := mark_boundaries Stub.libs;
  grad_model := grad_model Stub.libs;
  tape_gradient := tape_gradient Stub.libs;
  cv2_resize := cv2_resize Stub.libs;
  colorize_blend := colorize_blend Stub.libs
|}.

Definition tone_explanation : Lime.explanation :=
  Lime.Explanation (rescaled tone_image) [[0%nat]]
    (fun label => map (fun r => (r, 1%Q)) (Lime.region_ids [[0%nat]])).

Definition tone_parts : lime_parts :=
  let tm := Lime.get_image_and_mask tone_explanation 1%Z false 8%nat true in
  LimeParts tone_explanation 1%Z (fst tm) (snd tm).

Definition tone_overlay : list (list (list byte)) :=
  match grad_overlay libs_one_region tone_image 1%Z with
  | Ok img => img
  | Raise _ => []
  end.

Definition xai_world : world :=
  let wl := emit (after_report uploaded_tone_world "fake")
                 (StWrite "### XAI Metrics using LIME") in
  let w3 := emit wl (StPyplot
              [ Axes (PicImage tone_image) "Original Image";
                Axes (PicFloat (mark_boundaries libs_one_region
                                  (lime_temp tone_parts) (lime_mask tone_parts)))
                     "Predicted class: fake" ]) in
  let wg := emit w3 (StWrite "### XAI Metrics using Grad-CAM") in
  emit wg (StPyplot
    [ Axes (PicImage tone_image) "Original Image";
      Axes (PicUint8 tone_overlay) "Grad-CAM: fake" ]).

(** ** The classifier adapter *)

Lemma of_uint8_range b : (0 <= Np.of_uint8 b <= 255)%Q.
Proof.
  unfold Np.of_uint8, Qle; simpl.
  pose proof (Byte.to_N_bounded b). lia.
Qed.

Lemma rescale_in_unit b : in_unit (Np.of_uint8 b / 255)%Q.
Proof.
  destruct (of_uint8_range b) as [H0 H1]. unfold in_unit.
  split.
  - apply Qle_shift_div_l; [reflexivity |]. now rewrite Qmult_0_l.
  - apply Qle_shift_div_r; [reflexivity |]. now rewrite Qmult_1_l.
Qed.

Lemma rescaled_in_unit image_data : all3 in_unit (rescaled image_data).
Proof.
  unfold all3, rescaled, Np.map3, np_array.
  rewrite map_map. apply Forall_map, Forall_forall. intros row _.
  rewrite map_map. apply Forall_map, Forall_forall. intros [[r g] b] _.
  repeat constructor; apply rescale_in_unit.
Qed.

Lemma argmax_from_first_max l : forall pre best bv,
  pre !! best = Some bv ->
  (forall j w, pre !! j = Some w -> (w <= bv)%Q) ->
  (forall j w, (j < best)%nat -> pre !! j = Some w -> (w < bv)%Q) ->
  first_max (pre ++ l) (Np.argmax_from (length pre) best bv l).
Proof.
  induction l as [| x l IH]; intros pre best bv Hbest Hle Hlt; simpl.
  - rewrite app_nil_r. exists bv. auto.
  - replace (pre ++ x :: l) with ((pre ++ [x]) ++ l) by now rewrite <- app_assoc.
    replace (S (length pre)) with (length (pre ++ [x]))
      by (rewrite length_app; simpl; lia).
    destruct (Qlt_le_dec bv x) as [Hbx | Hxb].
    + apply IH.
      * rewrite lookup_app_r by lia. now rewrite Nat.sub_diag.
      * intros j w Hj. apply lookup_app_Some in Hj as [Hj | [_ Hj]].
        -- apply Qlt_le_weak, Qle_lt_trans with bv; eauto.
        -- apply list_lookup_singleton_Some in Hj as [_ <-]. apply Qle_refl.
      * intros j w Hji Hj. apply lookup_app_Some in Hj as [Hj | [Hge _]]; [| lia].
        apply Qle_lt_trans with bv; eauto.
    + apply IH.
      * apply lookup_app_l_Some, Hbest.
      * intros j w Hj. apply lookup_app_Some in Hj as [Hj | [_ Hj]]; eauto.
        apply list_lookup_singleton_Some in Hj as [_ <-]. exact Hxb.
      * intros j w Hji Hj. apply lookup_app_Some in Hj as [Hj | [Hge _]]; eauto.
        apply lookup_lt_Some in Hbest. lia.
Qed.

Lemma argmax_first_max a :
  concat a <> [] ->
  exists i, Np.argmax a = Ok (Z.of_nat i) /\ first_max (concat a) i.
Proof.
  unfold Np.argmax. destruct (concat a) as [| x l]; [congruence | intros _].
  eexists; split; [reflexivity |].
  apply (argmax_from_first_max l [x] 0%nat x); [reflexivity | |].
  - intros [| j] w Hj; simpl in Hj; [| now destruct j].
    injection Hj as <-. apply Qle_refl.
  - intros j w Hj; lia.
Qed.

Lemma predictions_returns_first_max image_data model prediction :
  predict model [rescaled image_data] = Ok prediction ->
  concat prediction <> [] ->
  exists i,
    predictions image_data model = Ok (Z.of_nat i, prediction) /\
    first_max (concat prediction) i.
Proof.
  intros Hp Hne.
  destruct (argmax_first_max prediction Hne) as (i & Hi & Hmax).
  exists i. split; [| exact Hmax].
  unfold predictions, Np.expand_dims0, rescaled in *. cbv zeta.
  rewrite Hp. simpl. now rewrite Hi.
Qed.

(** C6.  [predictions] hands the model a batch whose single element is the
    image with every channel value divided by 255 (so in [0,1]) and nothing
    else done to it; whatever probabilities the model returns for that batch
    are returned with the index of their first maximum as the label, so ties
    go to the lowest class index. *)
Theorem predictions_rescales_batches_first_max image_data model prediction :
  predict model [rescaled image_data] = Ok prediction ->
  concat prediction <> [] ->
  all3 in_unit (rescaled image_data) /\
  exists i,
    predictions image_data model = Ok (Z.of_nat i, prediction) /\
    first_max (concat prediction) i.
Proof.
  intros Hp Hne. split; [apply rescaled_in_unit |].
  now apply predictions_returns_first_max.
Qed.

Lemma predictions_rescales_batches_first_max_witness :
  predict Stub.model [rescaled Stub.pixel] = Ok [[3 # 10; 7 # 10]%Q] /\
  concat [[3 # 10; 7 # 10]%Q] <> [] /\
  (all3 in_unit (rescaled Stub.pixel) /\
   exists i,
     predictions Stub.pixel Stub.model = Ok (Z.of_nat i, [[3 # 10; 7 # 10]%Q]) /\
     first_max (concat [[3 # 10; 7 # 10]%Q]) i).
Proof.
  split; [reflexivity |]. split; [discriminate |].
  apply (predictions_rescales_batches_first_max Stub.pixel Stub.model);
    [reflexivity | discriminate].
Defined.

Lemma rescaled_shape image_data :
  is_spectral_image image_data -> shape_224_224_3 (rescaled image_data).
Proof.
  intros [Hh Hw]. unfold shape_224_224_3, rescaled, Np.map3, np_array.
  rewrite !length_map. split; [exact Hh |].
  rewrite map_map. apply Forall_map. eapply Forall_impl; [exact Hw |].
  intros row Hrow; simpl. rewrite !length_map. split; [exact Hrow |].
  rewrite map_map. apply Forall_map, Forall_forall. now intros [[r g] b] _.
Qed.

(** C8.  For a spectral image and a conforming model, [predictions] returns,
    and the probability vector it returns has non-negative entries that sum
    to 1 within 1e-5; the label is an index of the class vocabulary. *)
Theorem predictions_probabilities_valid image_data model :
  is_spectral_image image_data ->
  conforming model ->
  exists class_label p,
    predictions image_data model = Ok (class_label, [p]) /\
    valid_probabilities p /\
    (0 <= class_label < Z.of_nat (length class_names))%Z.
Proof.
  intros Himg Hconf.
  destruct (Hconf (rescaled image_data) (rescaled_shape _ Himg)
              (rescaled_in_unit _)) as (p & Hp & Hlen & Hvalid).
  assert (Hne : concat [p] <> []).
  { simpl. rewrite app_nil_r. intros ->. discriminate Hlen. }
  destruct (predictions_returns_first_max image_data model [p] Hp Hne)
    as (i & Hi & (v & Hv & _)).
  exists (Z.of_nat i), p. split; [exact Hi |]. split; [exact Hvalid |].
  simpl in Hv. rewrite app_nil_r in Hv. apply lookup_lt_Some in Hv.
  rewrite <- Hlen. lia.
Qed.

Lemma stub_model_conforming : conforming Stub.model.
Proof.
  intros x _ _. exists [3 # 10; 7 # 10]%Q.
  split; [reflexivity |]. split; [reflexivity |].
  split; [repeat constructor; discriminate | discriminate].
Qed.

Lemma blank_is_spectral_image : is_spectral_image Stub.blank.
Proof.
  split; [apply length_replicate |].
  apply Forall_replicate, length_replicate.
Qed.

Lemma predictions_probabilities_valid_witness :
  is_spectral_image Stub.blank /\
  conforming Stub.model /\
  exists class_label p,
    predictions Stub.blank Stub.model = Ok (class_label, [p]) /\
    valid_probabilities p /\
    (0 <= class_label < Z.of_nat (length class_names))%Z.
Proof.
  split; [exact blank_is_spectral_image |].
  split; [exact stub_model_conforming |].
  exact (predictions_probabilities_valid Stub.blank Stub.model
           blank_is_spectral_image stub_model_conforming).
Defined.

(** ** The perturbation explainer *)

(** C10.  When [predictions] reports [class_label] for an image and a model,
    [lime_predict] on the same image and model explains that same label: if
    the LIME explanation [e] is obtained, the label passed to
    [get_image_and_mask] is [class_label]. *)
Theorem lime_explains_predicted_class L image_data model class_label prediction e :
  predictions image_data model = Ok (class_label, prediction) ->
  Lime.explain_instance (segmentation_fn L) (fit_surrogate L)
    (rescaled image_data) (predict model) 0%Q 1000%nat = Ok e ->
  exists parts,
    lime_explain L image_data model = Ok parts /\
    lime_class_label parts = class_label /\
    lime_explanation parts = e /\
    (lime_temp parts, lime_mask parts) =
      Lime.get_image_and_mask e class_label false 8%nat true.
Proof.
  unfold predictions, lime_explain, Np.expand_dims0, rescaled. cbv zeta.
  intros Hpred Hexp. rewrite Hexp. simpl.
  destruct (predict model _) as [p | err]; simpl in *; [| discriminate].
  destruct (Np.argmax p) as [l | err]; simpl in *; [| discriminate].
  injection Hpred as -> ->.
  eexists; split; [reflexivity |].
  split; [reflexivity |]. split; [reflexivity |].
  cbn [lime_temp lime_mask]. symmetry. apply surjective_pairing.
Qed.

Lemma lime_explains_predicted_class_witness :
  predictions Stub.pixel Stub.model = Ok (1%Z, [[3 # 10; 7 # 10]%Q]) /\
  Lime.explain_instance (segmentation_fn Stub.libs) (fit_surrogate Stub.libs)
    (rescaled Stub.pixel) (predict Stub.model) 0%Q 1000%nat
    = Ok pixel_explanation /\
  exists parts,
    lime_explain Stub.libs Stub.pixel Stub.model = Ok parts /\
    lime_class_label parts = 1%Z /\
    lime_explanation parts = pixel_explanation /\
    (lime_temp parts, lime_mask parts) =
      Lime.get_image_and_mask pixel_explanation 1%Z false 8%nat true.
Proof.
  split; [reflexivity |]. split; [reflexivity |].
  apply (lime_explains_predicted_class Stub.libs Stub.pixel Stub.model 1%Z
           [[3 # 10; 7 # 10]%Q] pixel_explanation); reflexivity.
Defined.

Lemma size_list_to_set_le (l : list nat) :
  (size (list_to_set l : gset nat) <= length l)%nat.
Proof.
  induction l as [| x l IH].
  - now rewrite list_to_set_nil, size_empty.
  - rewrite list_to_set_cons, size_union_alt, size_singleton. simpl.
    assert (Hs : (list_to_set l ∖ {[x]} : gset nat) ⊆ list_to_set l)
      by apply subseteq_difference_l, reflexivity.
    apply subseteq_size in Hs. lia.
Qed.

Lemma explain_instance_regions seg_fn fit image classifier_fn hide_color n e :
  Lime.explain_instance seg_fn fit image classifier_fn hide_color n = Ok e ->
  Lime.segments e = seg_fn image /\
  forall label, map fst (Lime.local_exp e label) = Lime.region_ids (Lime.segments e).
Proof.
  unfold Lime.explain_instance.
  destruct (_ =? 0)%nat; [discriminate |].
  destruct (_ <? _)%nat; [discriminate |].
  destruct (fit _ _ _ _ _) as [coef | err]; simpl; [| discriminate].
  intros [= <-]; simpl. split; [reflexivity |].
  intros label. rewrite map_map; simpl. apply map_id.
Qed.

Lemma selected_regions_length e label positive_only k :
  (length (Lime.selected_regions e label positive_only k) <= k)%nat.
Proof.
  unfold Lime.selected_regions. rewrite length_map, length_take. lia.
Qed.

Lemma selected_regions_ranked e label positive_only k r :
  r ∈ Lime.selected_regions e label positive_only k ->
  r ∈ map fst (Lime.local_exp e label).
Proof.
  unfold Lime.selected_regions. intros Hr.
  apply list_elem_of_fmap in Hr as (p & -> & Hp).
  apply list_elem_of_fmap. exists p. split; [reflexivity |].
  apply subseteq_take in Hp.
  rewrite <- (merge_sort_Permutation Lime.outranks).
  destruct positive_only; [| exact Hp].
  apply list_elem_of_In, filter_In in Hp as [Hp _]. now apply list_elem_of_In.
Qed.

Lemma mask_regions_marked (f : nat -> Z) (l : list nat) r :
  r ∈ map fst (List.filter (fun rm : nat * Z => negb (snd rm =? 0)%Z)
                 (combine l (map f l))) ->
  r ∈ l /\ f r <> 0%Z.
Proof.
  induction l as [| x l IH]; simpl.
  - intros H. inversion H.
  - destruct (f x =? 0)%Z eqn:Hfx; simpl.
    + intros H. destruct (IH H). split; [now right | assumption].
    + intros H. apply elem_of_cons in H as [-> | H].
      * split; [now left |]. now apply Z.eqb_neq.
      * destruct (IH H). split; [now right | assumption].
Qed.

Lemma mask_regions_selected e label positive_only k hide_rest r :
  r ∈ Lime.mask_regions (Lime.segments e)
        (snd (Lime.get_image_and_mask e label positive_only k hide_rest)) ->
  r ∈ concat (Lime.segments e) /\
  r ∈ Lime.selected_regions e label positive_only k.
Proof.
  unfold Lime.mask_regions, Lime.get_image_and_mask; simpl.
  rewrite <- concat_map. intros H.
  apply mask_regions_marked in H as [Hin Hne]. split; [exact Hin |].
  destruct (bool_decide _) eqn:Hd; [| congruence].
  now apply bool_decide_eq_true in Hd.
Qed.

Lemma marked_of_selected (f : nat -> Z) (l : list nat) r :
  r ∈ l -> f r <> 0%Z ->
  r ∈ map fst (List.filter (fun rm : nat * Z => negb (snd rm =? 0)%Z)
                 (combine l (map f l))).
Proof.
  intros Hin Hne. induction l as [| x l IH]; [inversion Hin |]. simpl.
  apply elem_of_cons in Hin as [<- | Hin].
  - apply Z.eqb_neq in Hne. rewrite Hne. simpl. now left.
  - destruct (f x =? 0)%Z; simpl; [now apply IH | right; now apply IH].
Qed.

Lemma selected_regions_marked e label positive_only k hide_rest r :
  r ∈ concat (Lime.segments e) ->
  r ∈ Lime.selected_regions e label positive_only k ->
  r ∈ Lime.mask_regions (Lime.segments e)
        (snd (Lime.get_image_and_mask e label positive_only k hide_rest)).
Proof.
  unfold Lime.mask_regions, Lime.get_image_and_mask; simpl.
  rewrite <- concat_map. intros Hin Hsel.
  apply marked_of_selected; [exact Hin |].
  now rewrite bool_decide_eq_true_2.
Qed.

Lemma outranks_total : Total Lime.outranks.
Proof.
  intros a b. unfold Lime.outranks.
  destruct (Qlt_le_dec (Qabs (snd a)) (Qabs (snd b))) as [Hlt | Hle].
  - right. now apply Qlt_le_weak.
  - left. exact Hle.
Qed.

Lemma outranks_trans : Transitive Lime.outranks.
Proof.
  intros a b c Hab Hbc. unfold Lime.outranks in *.
  now apply Qle_trans with (Qabs (snd b)).
Qed.

Lemma NoDup_fst_functional {A B} (l : list (A * B)) x y1 y2 :
  NoDup (map fst l) -> (x, y1) ∈ l -> (x, y2) ∈ l -> y1 = y2.
Proof.
  induction l as [| [a b] l IH]; simpl; intros Hnd H1 H2; [inversion H1 |].
  apply NoDup_cons in Hnd as [Hnin Hnd].
  apply elem_of_cons in H1 as [[= -> ->] | H1];
    apply elem_of_cons in H2 as [[= ->] | H2]; try reflexivity.
  - exfalso. apply Hnin. apply list_elem_of_fmap. now exists (a, y2).
  - subst. exfalso. apply Hnin. apply list_elem_of_fmap. now exists (a, y1).
  - now apply IH.
Qed.

Lemma NoDup_take_of {A} (l : list A) k : NoDup l -> NoDup (take k l).
Proof.
  intros H. rewrite <- (take_drop k l) in H. now apply NoDup_app in H as [H _].
Qed.

(** When every region of the segmentation has one weight, as after
    [explain_instance], the ranking is a rearrangement of the regions. *)
Lemma ranked_regions e label :
  map fst (Lime.local_exp e label) = Lime.region_ids (Lime.segments e) ->
  map fst (merge_sort Lime.outranks (Lime.local_exp e label))
  ≡ₚ Lime.region_ids (Lime.segments e).
Proof.
  intros Hreg. rewrite <- Hreg. apply fmap_Permutation, merge_sort_Permutation.
Qed.

Lemma ranked_NoDup e label :
  map fst (Lime.local_exp e label) = Lime.region_ids (Lime.segments e) ->
  NoDup (map fst (merge_sort Lime.outranks (Lime.local_exp e label))).
Proof.
  intros Hreg. rewrite (ranked_regions e label Hreg). apply NoDup_remove_dups.
Qed.

Lemma selected_regions_all e label k :
  Lime.selected_regions e label false k
  = take k (map fst (merge_sort Lime.outranks (Lime.local_exp e label))).
Proof. unfold Lime.selected_regions. apply fmap_take. Qed.

Lemma selected_regions_NoDup e label k :
  map fst (Lime.local_exp e label) = Lime.region_ids (Lime.segments e) ->
  NoDup (Lime.selected_regions e label false k).
Proof.
  intros Hreg. rewrite selected_regions_all. now apply NoDup_take_of, ranked_NoDup.
Qed.

Lemma selected_regions_count e label k :
  map fst (Lime.local_exp e label) = Lime.region_ids (Lime.segments e) ->
  length (Lime.selected_regions e label false k)
  = min k (length (Lime.region_ids (Lime.segments e))).
Proof.
  intros Hreg. rewrite selected_regions_all, length_take.
  now rewrite (Permutation_length (ranked_regions e label Hreg)).
Qed.

(** A selected region weighs at least as much, in magnitude, as a region
    that is left out. *)
Lemma selected_regions_outrank e label k r q r' q' :
  map fst (Lime.local_exp e label) = Lime.region_ids (Lime.segments e) ->
  (r, q) ∈ Lime.local_exp e label -> (r', q') ∈ Lime.local_exp e label ->
  r ∈ Lime.selected_regions e label false k ->
  r' ∉ Lime.selected_regions e label false k ->
  (Qabs q' <= Qabs q)%Q.
Proof.
  intros Hreg Hr Hr' Hsel Hnot.
  pose proof (ranked_NoDup e label Hreg) as Hnd.
  unfold Lime.selected_regions in Hsel, Hnot.
  remember (merge_sort Lime.outranks (Lime.local_exp e label)) as ranked eqn:Hrk.
  assert (Hperm : ranked ≡ₚ Lime.local_exp e label)
    by (subst ranked; apply merge_sort_Permutation).
  assert (Hsorted : StronglySorted Lime.outranks (take k ranked ++ drop k ranked)).
  { rewrite take_drop. subst ranked.
    apply StronglySorted_merge_sort; [apply outranks_trans | apply outranks_total]. }
  apply list_elem_of_fmap in Hsel as ([r0 q0] & Hfst & Hin). simpl in Hfst. subst r0.
  assert (q0 = q) as ->.
  { eapply (NoDup_fst_functional ranked r); [exact Hnd | | now rewrite Hperm].
    now apply subseteq_take in Hin. }
  assert (Hin' : (r', q') ∈ drop k ranked).
  { rewrite <- Hperm, <- (take_drop k ranked) in Hr'.
    apply elem_of_app in Hr' as [Ht | Hd]; [| exact Hd].
    exfalso. apply Hnot. apply list_elem_of_fmap. now exists (r', q'). }
  exact (StronglySorted_app_1_elem_of _ _ _ _ _ Hsorted Hin Hin').
Qed.

(** C7.  For the explanation, label and mask that [lime_predict] computes:
    the segmentation is that of the image; the regions that appear in the
    mask are regions of that segmentation; there are at most 8 of them, and
    exactly 8 when the segmentation has 8 regions or more (all of them when
    it has fewer); every region of the segmentation has a weight; and a
    region in the mask weighs at least as much, in magnitude, as a region
    left out.  So the mask is the top 8 of the ranking, not any subset. *)
Theorem lime_mask_regions_subset_top_k L image_data model parts :
  lime_explain L image_data model = Ok parts ->
  let e := lime_explanation parts in
  let segments := Lime.segments e in
  let weights := Lime.local_exp e (lime_class_label parts) in
  let marked := Lime.mask_regions segments (lime_mask parts) in
  segments = segmentation_fn L (rescaled image_data) /\
  (list_to_set marked : gset nat) ⊆ list_to_set (Lime.region_ids segments) /\
  (size (list_to_set marked : gset nat) <= 8)%nat /\
  size (list_to_set marked : gset nat) = min 8 (length (Lime.region_ids segments)) /\
  map fst weights = Lime.region_ids segments /\
  (forall r q r' q',
     (r, q) ∈ weights -> (r', q') ∈ weights -> r ∈ marked -> r' ∉ marked ->
     (Qabs q' <= Qabs q)%Q).
Proof.
  unfold lime_explain, Np.expand_dims0. cbv zeta. fold (rescaled image_data).
  destruct (Lime.explain_instance _ _ _ _ _ _) as [e | err] eqn:He; simpl; [| discriminate].
  destruct (predict model _) as [p | err]; simpl; [| discriminate].
  destruct (Np.argmax p) as [label | err]; simpl; [| discriminate].
  intros [= <-]; simpl.
  apply explain_instance_regions in He as [Hseg Hreg].
  split; [exact Hseg |].
  assert (Hiff : forall r,
    r ∈ Lime.mask_regions (Lime.segments e)
          (snd (Lime.get_image_and_mask e label false 8 true)) <->
    r ∈ Lime.selected_regions e label false 8).
  { intros r. split.
    - intros Hr. now apply mask_regions_selected in Hr.
    - intros Hr. apply selected_regions_marked; [| exact Hr].
      apply elem_of_remove_dups. fold (Lime.region_ids (Lime.segments e)).
      rewrite <- (Hreg label). now apply selected_regions_ranked with false 8%nat. }
  assert (Hset : (list_to_set (Lime.mask_regions (Lime.segments e)
                    (snd (Lime.get_image_and_mask e label false 8 true))) : gset nat)
                 = list_to_set (Lime.selected_regions e label false 8)).
  { apply set_eq. intros r. rewrite !elem_of_list_to_set. apply Hiff. }
  assert (Hsize : size (list_to_set (Lime.mask_regions (Lime.segments e)
                    (snd (Lime.get_image_and_mask e label false 8 true))) : gset nat)
                  = min 8 (length (Lime.region_ids (Lime.segments e)))).
  { rewrite Hset, size_list_to_set by (apply selected_regions_NoDup, Hreg).
    apply selected_regions_count, Hreg. }
  split.
  { intros r Hr. apply elem_of_list_to_set in Hr. apply elem_of_list_to_set.
    rewrite <- (Hreg label). now apply selected_regions_ranked with false 8%nat, Hiff. }
  split.
  { eapply Nat.le_trans; [apply Nat.eq_le_incl; exact Hsize | apply Nat.le_min_l]. }
  split; [exact Hsize |].
  split; [apply Hreg |].
  intros r q r' q' Hr Hr' Hm Hn.
  apply (selected_regions_outrank e label 8 r q r' q' (Hreg label) Hr Hr').
  - now apply Hiff.
  - intros H. apply Hn. now apply Hiff.
Qed.

Lemma lime_mask_regions_subset_top_k_witness :
  lime_explain libs_pixel_regions strip Stub.model = Ok strip_parts /\
  (let e := lime_explanation strip_parts in
   let segments := Lime.segments e in
   let weights := Lime.local_exp e (lime_class_label strip_parts) in
   let marked := Lime.mask_regions segments (lime_mask strip_parts) in
   segments = segmentation_fn libs_pixel_regions (rescaled strip) /\
   (list_to_set marked : gset nat) ⊆ list_to_set (Lime.region_ids segments) /\
   (size (list_to_set marked : gset nat) <= 8)%nat /\
   size (list_to_set marked : gset nat) = min 8 (length (Lime.region_ids segments)) /\
   map fst weights = Lime.region_ids segments /\
   (forall r q r' q',
      (r, q) ∈ weights -> (r', q') ∈ weights -> r ∈ marked -> r' ∉ marked ->
      (Qabs q' <= Qabs q)%Q)).
Proof.
  split; [reflexivity |].
  apply (lime_mask_regions_subset_top_k libs_pixel_regions strip Stub.model strip_parts).
  reflexivity.
Defined.

(** On the picture of twelve regions the mask holds eight of them: the top
    eight of the ranking, and not the four regions of the middle row. *)
Lemma strip_marks_eight_of_twelve :
  Lime.region_ids (Lime.segments (lime_explanation strip_parts)) = seq 0 12 /\
  Lime.selected_regions (lime_explanation strip_parts) 1%Z false 8
  = [11; 10; 0; 9; 1; 8; 2; 3]%nat /\
  Lime.mask_regions (Lime.segments (lime_explanation strip_parts))
    (lime_mask strip_parts) = [0; 1; 2; 3; 8; 9; 10; 11]%nat.
Proof. repeat split; reflexivity. Qed.

(** ** The feature extractor *)

Lemma resize_nearest_shape {A} (d : A) h w (img : list (list A)) :
  length (resize_nearest d h w img) = h /\
  Forall (fun row => length row = w) (resize_nearest d h w img).
Proof.
  unfold resize_nearest. split.
  - now rewrite length_map, length_seq.
  - apply Forall_map, Forall_forall. intros i _. simpl.
    now rewrite length_map, length_seq.
Qed.

(** One run of [create_spectrogram], case by case. *)
Lemma create_spectrogram_run L sound w :
  create_spectrogram L sound w =
    match fs w !! audio_path w sound with
    | None => (Raise (FileNotFoundError (os_path_join "audio_files" sound)), w)
    | Some (WavFile y sr) =>
        match library_pipeline L y sr with
        | Ok png =>
            let img := resize_nearest black 224 224 png in
            (Ok img,
             World (cwd w) (<[png_path w := PngFile png]> (fs w))
                   (page w ++ [StImage img]))
        | Raise e => (Raise e, w)
        end
    | Some _ => (Raise (Exn "NoBackendError" (os_path_join "audio_files" sound)), w)
    end.
Proof.
  unfold create_spectrogram, library_pipeline, audio_path, png_path, bindM,
    librosa_load, lift.
  destruct (fs w !! _) as [[y sr | img | data] |]; try reflexivity.
  destruct (melspectrogram L y sr) as [ms | e]; simpl; [| reflexivity].
  destruct (power_to_db L ms) as [log_ms | e]; simpl; [| reflexivity].
  destruct (render_specshow L log_ms sr) as [png | e]; simpl; [| reflexivity].
  unfold load_img; simpl. now rewrite lookup_insert_eq.
Qed.

Lemma create_spectrogram_cwd L sound w :
  cwd (snd (create_spectrogram L sound w)) = cwd w.
Proof.
  rewrite create_spectrogram_run.
  destruct (fs w !! audio_path w sound) as [[y sr | img | data] |]; try reflexivity.
  now destruct (library_pipeline L y sr).
Qed.

(** The audio file is still there, unchanged, after a run, unless it is the
    spectrogram file itself. *)
Lemma create_spectrogram_keeps_audio L sound w :
  audio_path w sound <> png_path w ->
  fs (snd (create_spectrogram L sound w)) !! audio_path w sound
  = fs w !! audio_path w sound.
Proof.
  intros Hne. rewrite create_spectrogram_run.
  destruct (fs w !! audio_path w sound) as [[y sr | img | data] |] eqn:Hf;
    simpl; try exact Hf.
  destruct (library_pipeline L y sr); simpl; [| exact Hf].
  rewrite lookup_insert_ne; [exact Hf | congruence].
Qed.



(** C9.  Given libraries that accept non-empty audio with a positive sampling
    rate, [create_spectrogram] on a stored recording that is non-empty and not
    silent, with a positive rate, returns an image of 224 rows of 224 pixels,
    three channels each. *)
Theorem create_spectrogram_returns_224_224_3 L sound w y sr :
  libraries_accept_audio L ->
  fs w !! audio_path w sound = Some (WavFile y sr) ->
  y <> [] -> ~ is_silent y -> (0 < sr)%Z ->
  exists image_data w',
    create_spectrogram L sound w = (Ok image_data, w') /\
    is_spectral_image image_data /\
    Forall (Forall (fun px => length px = 3%nat)) (np_array image_data).
Proof.
  intros Hlib Hfile Hne _ Hsr.
  destruct (Hlib y sr Hne Hsr) as [png Hpng].
  rewrite create_spectrogram_run, Hfile, Hpng. cbv zeta.
  eexists _, _. split; [reflexivity |].
  split; [apply resize_nearest_shape |].
  unfold np_array. apply Forall_map, Forall_forall. intros row _.
  apply Forall_map, Forall_forall. now intros [[r g] b] _.
Qed.



Lemma stub_libraries_accept_audio : libraries_accept_audio Stub.libs.
Proof.
  intros [| v y] sr Hne _; [congruence |]. eexists. reflexivity.
Qed.

Lemma tone_not_silent : ~ is_silent Stub.tone.
Proof.
  unfold is_silent, Stub.tone.
  change (concat (replicate 4000 [0; 1; 0; -1]%Q))
    with (0%Q :: 1%Q :: [0; -1]%Q ++ concat (replicate 3999 [0; 1; 0; -1]%Q)).
  intros H. apply Forall_cons in H as [_ H]. apply Forall_cons in H as [H _].
  discriminate H.
Qed.

Lemma create_spectrogram_returns_224_224_3_witness :
  libraries_accept_audio Stub.libs /\
  fs Stub.world0 !! audio_path Stub.world0 "tone.wav" = Some (WavFile Stub.tone 16000) /\
  Stub.tone <> [] /\ ~ is_silent Stub.tone /\ (0 < 16000)%Z /\
  exists image_data w',
    create_spectrogram Stub.libs "tone.wav" Stub.world0 = (Ok image_data, w') /\
    is_spectral_image image_data /\
    Forall (Forall (fun px => length px = 3%nat)) (np_array image_data).
Proof.
  split; [exact stub_libraries_accept_audio |].
  split; [reflexivity |]. split; [discriminate |].
  split; [exact tone_not_silent |]. split; [reflexivity |].
  apply (create_spectrogram_returns_224_224_3 Stub.libs "tone.wav" Stub.world0
           Stub.tone 16000%Z).
  - exact stub_libraries_accept_audio.
  - reflexivity.
  - discriminate.
  - exact tone_not_silent.
  - reflexivity.
Defined.

(** C2, as the program has it.  [create_spectrogram] checks neither the
    waveform nor the sampling rate and has no error kind of its own: on a
    stored recording it fails exactly when one of the library calls fails,
    with that call's exception and the world untouched, and otherwise returns
    the image that [load_img] reads back. *)
Theorem create_spectrogram_fails_only_in_libraries L sound w y sr :
  fs w !! audio_path w sound = Some (WavFile y sr) ->
  (forall e, library_pipeline L y sr = Raise e ->
             create_spectrogram L sound w = (Raise e, w)) /\
  (forall png, library_pipeline L y sr = Ok png ->
               exists w', create_spectrogram L sound w
                          = (Ok (resize_nearest black 224 224 png), w')).
Proof.
  intros Hfile. rewrite create_spectrogram_run, Hfile. split.
  - now intros e ->.
  - intros png ->. eexists. reflexivity.
Qed.

Lemma create_spectrogram_fails_only_in_libraries_witness :
  fs Stub.world0 !! audio_path Stub.world0 "silent.wav" = Some (WavFile Stub.silent 16000) /\
  ((forall e, library_pipeline Stub.libs Stub.silent 16000 = Raise e ->
              create_spectrogram Stub.libs "silent.wav" Stub.world0
              = (Raise e, Stub.world0)) /\
   (forall png, library_pipeline Stub.libs Stub.silent 16000 = Ok png ->
                exists w', create_spectrogram Stub.libs "silent.wav" Stub.world0
                           = (Ok (resize_nearest black 224 224 png), w'))).
Proof.
  split; [reflexivity |].
  apply (create_spectrogram_fails_only_in_libraries Stub.libs "silent.wav"
           Stub.world0 Stub.silent 16000%Z).
  reflexivity.
Defined.

(** C2, as stated, fails: a stored all-zero recording is turned into an image
    and no exception is raised. *)
Lemma create_spectrogram_accepts_silence :
  fs Stub.world0 !! audio_path Stub.world0 "silent.wav" = Some (WavFile Stub.silent 16000) /\
  is_silent Stub.silent /\
  fst (create_spectrogram Stub.libs "silent.wav" Stub.world0)
  = Ok (resize_nearest black 224 224 [replicate 16000 (xff, xff, x00)%byte]).
Proof.
  split; [reflexivity |]. split; [apply Forall_replicate; reflexivity |].
  rewrite create_spectrogram_run.
  replace (fs Stub.world0 !! audio_path Stub.world0 "silent.wav")
    with (Some (WavFile Stub.silent 16000)) by reflexivity.
  replace (library_pipeline Stub.libs Stub.silent 16000)
    with (@Ok pil_image [replicate 16000 (xff, xff, x00)%byte])
    by (vm_compute; reflexivity).
  reflexivity.
Qed.

(** ** The gradient explainer *)

Lemma fmaximum_nonpositive x m :
  nonpositive x -> m = NInf \/ nonpositive m -> nonpositive (fmaximum x m).
Proof.
  intros (qx & -> & Hx) [-> | (qm & -> & Hm)]; simpl.
  - now exists qx.
  - exists (Qmax qx qm). split; [reflexivity |]. now apply Q.max_lub.
Qed.

Lemma reduce_nonpositive l :
  Forall nonpositive l ->
  fold_right fmaximum NInf l = NInf \/ nonpositive (fold_right fmaximum NInf l).
Proof.
  induction 1 as [| x l Hx Hl IH]; simpl; [now left |].
  right. now apply fmaximum_nonpositive.
Qed.

Lemma reduce_zero l :
  Forall nonpositive l -> Exists is_zero l ->
  is_zero (fold_right fmaximum NInf l).
Proof.
  induction 1 as [| x l Hx Hl IH]; intros Hex; [inversion Hex |]. simpl.
  destruct Hx as (qx & -> & Hx).
  apply Exists_cons in Hex as [(q & [= <-] & Hq) | Hex].
  - destruct (reduce_nonpositive l Hl) as [-> | (qm & -> & Hm)]; simpl.
    + now exists qx.
    + exists (Qmax qx qm). split; [reflexivity |].
      apply Qle_antisym; [now apply Q.max_lub |].
      rewrite <- Hq at 1. apply Q.le_max_l.
  - destruct (IH Hex) as (qm & -> & Hm); simpl.
    exists (Qmax qx qm). split; [reflexivity |].
    apply Qle_antisym.
    + apply Q.max_lub; [exact Hx | now rewrite Hm].
    + rewrite <- Hm at 1. apply Q.le_max_r.
Qed.

(** Line 102 on a map without positive evidence: when no entry of the
    weighted sum is positive and one is zero, the maximum is zero and every
    entry becomes NaN. *)
Lemma normalize_nan heatmap :
  Forall (Forall nonpositive) heatmap ->
  Exists (Exists is_zero) heatmap ->
  Forall (Forall (eq NaN)) (normalize heatmap).
Proof.
  intros Hall Hex. unfold normalize.
  assert (Hm : is_zero (reduce_max heatmap)).
  { apply reduce_zero.
    - now apply Forall_concat.
    - apply Exists_exists in Hex as (row & Hrow & Hex).
      apply Exists_exists in Hex as (v & Hv & Hz).
      apply Exists_exists. exists v. split; [| exact Hz].
      apply list_elem_of_In, in_concat. exists row.
      split; now apply list_elem_of_In. }
  destruct Hm as (m & -> & Hm).
  apply Forall_map. eapply Forall_impl; [exact Hall |]. intros row Hrow; simpl.
  apply Forall_map. eapply Forall_impl; [exact Hrow |].
  intros v (q & -> & Hq); simpl.
  apply Qeq_bool_iff in Hm. rewrite Hm. unfold sign_of.
  assert (Hz : (Qmax q 0 == 0)%Q).
  { apply Qle_antisym; [apply Q.max_lub; [exact Hq | apply Qle_refl] | apply Q.le_max_r]. }
  apply Qeq_alt in Hz. now rewrite Hz.
Qed.

Lemma zip_plus_zero (a b : list Q) :
  Forall (fun v => v == 0)%Q a -> Forall (fun v => v == 0)%Q b ->
  Forall (fun v => v == 0)%Q (zip_with Qplus a b).
Proof.
  intros Ha. revert b. induction Ha as [| x a Hx Ha IH]; intros b Hb; simpl.
  - constructor.
  - destruct Hb as [| y b Hy Hb]; constructor; [| now apply IH].
    rewrite Hx, Hy. reflexivity.
Qed.

(** A gradient that is zero everywhere has zero channel means. *)
Lemma reduce_mean_zero grads :
  Forall (Forall (Forall (Forall (fun v => v == 0)%Q))) grads ->
  concat (concat grads) <> [] ->
  Forall is_zero (reduce_mean_012 grads).
Proof.
  intros Hz Hne. unfold reduce_mean_012.
  assert (Hpx : Forall (Forall (fun v => v == 0)%Q) (concat (concat grads)))
    by now apply Forall_concat, Forall_concat.
  set (pixels := concat (concat grads)) in *.
  assert (Hsums : Forall (fun v => v == 0)%Q
            (fold_right (zip_with Qplus) (replicate (length (hd [] pixels)) 0%Q) pixels)).
  { clear Hne. generalize (length (hd [] pixels)). intros c.
    induction Hpx as [| px l Hp Hl IH]; simpl.
    - apply Forall_replicate. reflexivity.
    - now apply zip_plus_zero. }
  apply Forall_map. eapply Forall_impl; [exact Hsums |].
  intros s Hs; simpl.
  destruct (Qeq_bool _ 0) eqn:Hn.
  - apply Qeq_bool_iff in Hn. unfold Qeq in Hn; simpl in Hn.
    destruct pixels; [congruence | simpl in Hn; lia].
  - eexists. split; [reflexivity |]. rewrite Hs. apply Qmult_0_l.
Qed.

Lemma fsum_zero_weights (px : list Q) : forall weights,
  Forall is_zero weights ->
  is_zero (fsum (zip_with (fun v wc => fmul (Fin v) wc) px weights)).
Proof.
  unfold fsum.
  induction px as [| v px IH]; intros weights Hw.
  - exists 0%Q. split; reflexivity.
  - destruct Hw as [| wc weights (q & -> & Hq) Hw].
    + exists 0%Q. split; reflexivity.
    + destruct (IH weights Hw) as (r & Hr & Hr0).
      cbn [zip_with fold_right]. rewrite Hr. simpl.
      eexists. split; [reflexivity |]. rewrite Hq, Hr0.
      rewrite Qmult_0_r. reflexivity.
Qed.

Lemma weighted_sum_zero a weights :
  Forall is_zero weights -> Forall (Forall is_zero) (weighted_sum a weights).
Proof.
  intros Hw. unfold weighted_sum.
  apply Forall_map, Forall_forall. intros row _.
  apply Forall_map, Forall_forall. intros px _.
  now apply fsum_zero_weights.
Qed.

Lemma is_zero_nonpositive v : is_zero v -> nonpositive v.
Proof. intros (q & -> & Hq). exists q. split; [reflexivity |]. rewrite Hq. apply Qle_refl. Qed.

(** With a vanishing gradient the whole map is NaN, whatever the
    activations. *)
Lemma grad_cam_vanishing_gradient a grads :
  Forall (Forall (Forall (Forall (fun v => v == 0)%Q))) grads ->
  concat (concat grads) <> [] ->
  concat a <> [] ->
  Forall (Forall (eq NaN)) (grad_cam a grads).
Proof.
  intros Hz Hne Ha. unfold grad_cam. cbv zeta.
  pose proof (weighted_sum_zero a _ (reduce_mean_zero grads Hz Hne)) as Hh.
  apply normalize_nan.
  - eapply Forall_impl; [exact Hh |]. intros row Hrow.
    eapply Forall_impl; [exact Hrow |]. apply is_zero_nonpositive.
  - clear Hz Hne. revert Hh. unfold weighted_sum.
    generalize (reduce_mean_012 grads). intros weights Hh.
    induction a as [| row a IH]; [exfalso; now apply Ha |].
    simpl in *. apply Forall_cons in Hh as [Hrow Hh].
    destruct row as [| px row]; simpl in *.
    + right. apply IH; assumption.
    + left. apply Forall_cons in Hrow as [Hpx _]. now left.
Qed.

Lemma map_replicate {A B} (f : A -> B) n x :
  map f (replicate n x) = replicate n (f x).
Proof. induction n as [| n IH]; simpl; [reflexivity | now rewrite IH]. Qed.

Lemma Forall_replicate_head {A} (P : A -> Prop) n x :
  Forall P (replicate (S n) x) -> P x.
Proof. simpl. intros H. now apply Forall_cons in H as [H _]. Qed.

(** C1 at the failing input.  For activations that are 1 everywhere and a
    gradient that is 0 everywhere, in the shape of [block5_conv3] (14 x 14 x
    512), the normalized map of [grad_predict] is NaN at each of the 14 x 14
    positions: the maximum of the weighted sum is 0 and line 102 divides 0 by
    it. *)
Theorem grad_cam_vanishing_gradient_all_nan :
  grad_cam flat_activations vanishing_gradient = replicate 14 (replicate 14 NaN).
Proof.
  assert (Hnan : Forall (Forall (eq NaN)) (grad_cam flat_activations vanishing_gradient)).
  { apply grad_cam_vanishing_gradient.
    - apply Forall_cons; split; [| constructor].
      repeat apply Forall_replicate. reflexivity.
    - discriminate.
    - discriminate. }
  unfold grad_cam, normalize, weighted_sum, flat_activations in *. cbv zeta in *.
  rewrite !map_replicate in *.
  change 14%nat with (S 13) in Hnan at 1 2.
  apply Forall_replicate_head, Forall_replicate_head in Hnan.
  rewrite <- Hnan. reflexivity.
Qed.

Lemma reduce_finite l :
  Forall finite l ->
  (l = [] /\ fold_right fmaximum NInf l = NInf) \/
  finite (fold_right fmaximum NInf l).
Proof.
  induction 1 as [| x l [qx ->] Hl IH]; simpl; [now left |].
  right. destruct IH as [[_ ->] | [qm ->]]; simpl; eexists; reflexivity.
Qed.

Lemma reduce_max_upper l : forall m,
  Forall finite l -> fold_right fmaximum NInf l = Fin m ->
  Forall (fun v => exists q, v = Fin q /\ (q <= m)%Q) l.
Proof.
  induction l as [| x l IH]; intros m Hfin Hm; [constructor |].
  apply Forall_cons in Hfin as [[qx ->] Hfin]. simpl in Hm.
  destruct (reduce_finite l Hfin) as [[-> Hl] | [qm Hl]]; rewrite Hl in Hm;
    simpl in Hm; injection Hm as <-.
  - constructor; [| constructor]. exists qx. split; [reflexivity | apply Qle_refl].
  - constructor.
    + exists qx. split; [reflexivity | apply Q.le_max_l].
    + eapply Forall_impl; [exact (IH qm Hfin Hl) |].
      intros v (q & -> & Hq). exists q. split; [reflexivity |].
      apply Qle_trans with qm; [exact Hq | apply Q.le_max_r].
Qed.

(** Line 102 on a map with positive evidence: when the entries are finite and
    their maximum is positive, every normalized value lies in [0,1]. *)
Lemma normalize_in_unit heatmap m :
  Forall (Forall finite) heatmap ->
  reduce_max heatmap = Fin m -> (0 < m)%Q ->
  Forall (Forall unit_value) (normalize heatmap).
Proof.
  intros Hfin Hm Hpos. unfold normalize. rewrite Hm.
  pose proof (reduce_max_upper _ m (proj2 (Forall_concat _ _) Hfin) Hm) as Hup.
  apply Forall_map, Forall_forall. intros row Hrow.
  apply Forall_map, Forall_forall. intros v Hv.
  assert (Hin : v ∈ concat heatmap).
  { apply list_elem_of_In, in_concat. exists row. split; now apply list_elem_of_In. }
  destruct (proj1 (Forall_forall _ _) Hup v Hin) as (q & -> & Hq). simpl.
  destruct (Qeq_bool m 0) eqn:Hz.
  - apply Qeq_bool_iff in Hz. rewrite Hz in Hpos. now apply Qlt_irrefl in Hpos.
  - eexists. split; [reflexivity |]. split.
    + apply Qle_shift_div_l; [exact Hpos |]. rewrite Qmult_0_l. apply Q.le_max_r.
    + apply Qle_shift_div_r; [exact Hpos |]. rewrite Qmult_1_l.
      apply Q.max_lub; [exact Hq | now apply Qlt_le_weak].
Qed.

(** Line 105: the map is resized to the height and width of the input
    image. *)
Lemma upsampled_heatmap_resolution L image_data heatmap :
  cv2_resize_contract L ->
  is_spectral_image image_data ->
  let x := vgg16_preprocess_input (Np.expand_dims0 (img_to_array image_data)) in
  length (upsampled_heatmap L x heatmap) = 224%nat /\
  Forall (fun row => length row = 224%nat) (upsampled_heatmap L x heatmap).
Proof.
  intros Hcv [Hh Hw] x. unfold upsampled_heatmap. cbv zeta.
  destruct (Hcv heatmap (length (nth 0 (nth 0 x []) [])) (length (nth 0 x [])))
    as [Hlen Hrows].
  assert (Hx0 : length (nth 0 x []) = 224%nat).
  { unfold x, vgg16_preprocess_input, Np.expand_dims0, img_to_array, Np.map3, np_array.
    simpl. now rewrite !length_map. }
  assert (Hx00 : length (nth 0 (nth 0 x []) []) = 224%nat).
  { unfold x, vgg16_preprocess_input, Np.expand_dims0, img_to_array, Np.map3, np_array.
    simpl. destruct image_data as [| row rows]; [discriminate Hh |].
    apply Forall_cons in Hw as [Hrow _]. simpl. now rewrite !length_map. }
  now rewrite Hx0, Hx00 in *.
Qed.

Lemma getitem_class_names_out_of_range class_idx :
  (2 <= class_idx)%Z -> getitem class_names class_idx = Raise IndexError.
Proof.
  intros H. unfold getitem. simpl length.
  destruct (class_idx <? 0)%Z eqn:Hneg; [apply Z.ltb_lt in Hneg; lia |].
  destruct (class_idx <? Z.of_nat 2)%Z eqn:Hlt; [apply Z.ltb_lt in Hlt; lia |].
  now rewrite andb_false_r.
Qed.

Lemma tf_column_error preds i e :
  tf_column preds i = Raise e -> exn_kind e = "InvalidArgumentError".
Proof.
  induction preds as [| row preds IH]; simpl; [discriminate |].
  destruct (getitem row i); [| now intros [= <-]].
  destruct (tf_column preds i); simpl; [discriminate |].
  intros [= <-]. now apply IH.
Qed.

(** C4.  With a class index of 2 or more, [grad_predict] raises and leaves the
    page as it was: it returns no image and draws no figure.  The exception is
    the [IndexError] of the lookup in the class vocabulary, unless the network
    stage fails first (TensorFlow's [InvalidArgumentError] for a column the
    scores do not have, or an exception of the model or of the gradient). *)
Theorem grad_predict_rejects_class_beyond_vocabulary
    L image_data model preds class_idx w :
  (2 <= class_idx)%Z ->
  let x := vgg16_preprocess_input (Np.expand_dims0 (img_to_array image_data)) in
  exists e,
    grad_predict L image_data model preds class_idx w = (Raise e, w) /\
    (e = IndexError \/
     exn_kind e = "InvalidArgumentError" \/
     grad_model L x = Raise e \/
     tape_gradient L x class_idx = Raise e).
Proof.
  intros Hidx x. unfold grad_predict, bindM, lift. cbv zeta. fold x.
  destruct (grad_model L x) as [[acts scores] | e1] eqn:Hgm; [| eauto 6].
  simpl fst; simpl snd.
  destruct (tf_column scores class_idx) as [col | e2] eqn:Hcol;
    [| apply tf_column_error in Hcol; eauto 6].
  destruct (tape_gradient L x class_idx) as [grads | e3]; [| eauto 6].
  destruct (getitem acts 0%Z) as [act | e4] eqn:Hact.
  - rewrite (getitem_class_names_out_of_range _ Hidx). eauto.
  - exists e4. split; [reflexivity |]. left.
    unfold getitem in Hact.
    destruct (_ && _)%bool; [destruct (acts !! _) |]; congruence.
Qed.

Lemma grad_predict_rejects_class_beyond_vocabulary_witness :
  (2 <= 2)%Z /\
  (let x := vgg16_preprocess_input (Np.expand_dims0 (img_to_array Stub.pixel)) in
   exists e,
     grad_predict Stub.libs Stub.pixel Stub.model [[3 # 10; 7 # 10]%Q] 2%Z Stub.world0
     = (Raise e, Stub.world0) /\
     (e = IndexError \/
      exn_kind e = "InvalidArgumentError" \/
      grad_model Stub.libs x = Raise e \/
      tape_gradient Stub.libs x 2%Z = Raise e)).
Proof.
  split; [lia |].
  apply (grad_predict_rejects_class_beyond_vocabulary Stub.libs Stub.pixel Stub.model
           [[3 # 10; 7 # 10]%Q] 2%Z Stub.world0).
  lia.
Defined.

(** ** The orchestrator *)

(** One run of [lime_predict]. *)
Lemma lime_predict_run L image_data model w :
  lime_predict L image_data model w =
    match lime_explain L image_data model with
    | Raise e => (Raise e, w)
    | Ok parts =>
        match getitem class_names (lime_class_label parts) with
        | Raise e => (Raise e, w)
        | Ok label_name =>
            let fig :=
              [ Axes (PicImage image_data) "Original Image";
                Axes (PicFloat (mark_boundaries L (lime_temp parts) (lime_mask parts)))
                     ("Predicted class: " +:+ label_name) ] in
            (Ok fig, emit w (StPyplot fig))
        end
    end.
Proof.
  unfold lime_predict, bindM, lift, st_emit, ret, emit.
  destruct (lime_explain L image_data model) as [parts | e]; [| reflexivity].
  now destruct (getitem class_names _).
Qed.

(** One run of [grad_predict]. *)
Lemma grad_predict_run L image_data model preds class_idx w :
  grad_predict L image_data model preds class_idx w =
    match grad_overlay L image_data class_idx with
    | Raise e => (Raise e, w)
    | Ok superimposed_img =>
        match getitem class_names class_idx with
        | Raise e => (Raise e, w)
        | Ok label_name =>
            (Ok superimposed_img,
             emit w (StPyplot
               [ Axes (PicImage image_data) "Original Image";
                 Axes (PicUint8 superimposed_img) ("Grad-CAM: " +:+ label_name) ]))
        end
    end.
Proof.
  unfold grad_predict, grad_overlay, bindM, lift, st_emit, ret, emit. cbv zeta.
  destruct (grad_model L _) as [out | e]; simpl; [| reflexivity].
  destruct (tf_column (snd out) class_idx) as [col | e]; simpl; [| reflexivity].
  destruct (tape_gradient L _ class_idx) as [grads | e]; simpl; [| reflexivity].
  destruct (getitem (fst out) 0%Z) as [act | e]; simpl; [| reflexivity].
  now destruct (getitem class_names class_idx).
Qed.

(** One run of [homepage] on an upload, stage by stage. *)
Lemma homepage_run L f show_xai w :
  homepage L (Some f) show_xai w =
    let w0 := after_upload f w in
    match load_model L model_path with
    | Raise e =>
        (Raise StopException,
         emit w0 (StError ("Failed to load model: " +:+ exn_msg e)))
    | Ok model =>
        match create_spectrogram L (name f) w0 with
        | (Raise e, w1) => (Raise e, w1)
        | (Ok spec, w1) =>
            let wr := emit w1 (StWrite "### Classification results:") in
            match predictions spec model with
            | Raise e => (Raise e, wr)
            | Ok (class_label, prediction) =>
                match getitem class_names class_label with
                | Raise e => (Raise e, wr)
                | Ok label_name =>
                    let w2 := after_report w1 label_name in
                    if show_xai then
                      match lime_predict L spec model
                              (emit w2 (StWrite "### XAI Metrics using LIME")) with
                      | (Raise e, w3) => (Raise e, w3)
                      | (Ok _, w3) =>
                          match grad_predict L spec model prediction class_label
                                  (emit w3 (StWrite "### XAI Metrics using Grad-CAM")) with
                          | (Raise e, w4) => (Raise e, w4)
                          | (Ok _, w4) => (Ok tt, w4)
                          end
                      end
                    else (Ok tt, w2)
                end
            end
        end
    end.
Proof.
  unfold homepage, save_file, st_stop.
  unfold bindM, try_except, lift, write_file, st_emit, throw, ret,
    after_upload, after_report, emit, report, model_path, audio_path.
  cbn [cwd fs page fst snd].
  destruct (load_model L _) as [model | e]; [| reflexivity].
  destruct (create_spectrogram L (name f) _) as [[spec | e] w1]; [| reflexivity].
  cbn [cwd fs page].
  destruct (predictions spec model) as [[class_label prediction] | e]; [| reflexivity].
  cbn [fst snd].
  destruct (getitem class_names class_label) as [label_name | e]; [| reflexivity].
  cbn [cwd fs page].
  destruct show_xai; [| reflexivity].
  destruct (lime_predict L spec model _) as [[fig | e] w3]; [| reflexivity].
  cbn [cwd fs page].
  destruct (grad_predict L spec model prediction class_label _) as [[img | e] w4];
    reflexivity.
Qed.

Lemma lime_predict_page L spec model w :
  exists evs, page (snd (lime_predict L spec model w)) = page w ++ evs.
Proof.
  rewrite lime_predict_run.
  destruct (lime_explain L spec model) as [parts | e]; simpl;
    [| exists []; now rewrite app_nil_r].
  destruct (getitem class_names _) as [label_name | e]; simpl;
    [| exists []; now rewrite app_nil_r].
  eexists. reflexivity.
Qed.

Lemma grad_predict_page L spec model preds class_idx w :
  exists evs, page (snd (grad_predict L spec model preds class_idx w)) = page w ++ evs.
Proof.
  rewrite grad_predict_run.
  destruct (grad_overlay L spec class_idx); simpl;
    [| exists []; now rewrite app_nil_r].
  destruct (getitem class_names class_idx); simpl;
    [| exists []; now rewrite app_nil_r].
  eexists. reflexivity.
Qed.

Lemma lime_predict_failure L spec model w e :
  fst (lime_predict L spec model w) = Raise e ->
  lime_predict L spec model w = (Raise e, w).
Proof.
  rewrite lime_predict_run.
  destruct (lime_explain L spec model); [| now intros [= ->]].
  destruct (getitem class_names _); [discriminate | now intros [= ->]].
Qed.

Lemma grad_predict_failure L spec model preds class_idx w e :
  fst (grad_predict L spec model preds class_idx w) = Raise e ->
  grad_predict L spec model preds class_idx w = (Raise e, w).
Proof.
  rewrite grad_predict_run.
  destruct (grad_overlay L spec class_idx); [| now intros [= ->]].
  destruct (getitem class_names class_idx); [discriminate | now intros [= ->]].
Qed.

Lemma create_spectrogram_failure L sound w e :
  fst (create_spectrogram L sound w) = Raise e ->
  create_spectrogram L sound w = (Raise e, w).
Proof.
  rewrite create_spectrogram_run.
  destruct (fs w !! audio_path w sound) as [[y sr | img | data] |];
    try (now intros [= ->]).
  destruct (library_pipeline L y sr); cbv zeta; [discriminate | now intros [= ->]].
Qed.

Lemma tone_run_uploaded L :
  library_pipeline L Stub.tone 16000 = Ok tone_png ->
  create_spectrogram L "tone.wav" uploaded_world = (Ok tone_image, uploaded_tone_world).
Proof.
  intros Hp. rewrite create_spectrogram_run.
  replace (fs uploaded_world !! audio_path uploaded_world "tone.wav")
    with (Some (WavFile Stub.tone 16000))
    by (symmetry; apply lookup_insert_eq).
  now rewrite Hp.
Qed.

Lemma tone_pipeline :
  library_pipeline Stub.libs Stub.tone 16000 = Ok tone_png.
Proof. vm_compute. reflexivity. Qed.

(** C5, as the program has it.  On an upload, [homepage] stops at the first
    failure, and the page holds what had been written up to it and nothing
    more.  A model that cannot be loaded is caught: the page gets the
    message "Failed to load model: ..." and the run ends with [st.stop()].
    An exception of [create_spectrogram], [predictions], the lookup of the
    class name, [lime_predict] or [grad_predict] leaves [homepage]
    unchanged: after [create_spectrogram] the page is as the upload left it;
    after [predictions] or the lookup it ends at the results heading and
    nothing about a class has been written; after [lime_predict] it ends at
    the LIME heading and Grad-CAM is not started; after [grad_predict] it
    ends at the Grad-CAM heading.  In both explainer cases the line that
    reports the classification is still on the page. *)
Theorem homepage_stops_at_first_failure L f w :
  let w0 := after_upload f w in
  (forall show_xai e,
     load_model L model_path = Raise e ->
     homepage L (Some f) show_xai w
     = (Raise StopException,
        emit w0 (StError ("Failed to load model: " +:+ exn_msg e)))) /\
  (forall show_xai model,
     load_model L model_path = Ok model ->
     (forall e,
        fst (create_spectrogram L (name f) w0) = Raise e ->
        homepage L (Some f) show_xai w = (Raise e, w0)) /\
     (forall spec w1,
        create_spectrogram L (name f) w0 = (Ok spec, w1) ->
        let wr := emit w1 (StWrite "### Classification results:") in
        (forall e,
           predictions spec model = Raise e ->
           homepage L (Some f) show_xai w = (Raise e, wr)) /\
        (forall class_label prediction e,
           predictions spec model = Ok (class_label, prediction) ->
           getitem class_names class_label = Raise e ->
           homepage L (Some f) show_xai w = (Raise e, wr)) /\
        (forall class_label prediction label_name,
           predictions spec model = Ok (class_label, prediction) ->
           getitem class_names class_label = Ok label_name ->
           let wl := emit (after_report w1 label_name)
                          (StWrite "### XAI Metrics using LIME") in
           let wg := emit (snd (lime_predict L spec model wl))
                          (StWrite "### XAI Metrics using Grad-CAM") in
           (forall e,
              fst (lime_predict L spec model wl) = Raise e ->
              homepage L (Some f) true w = (Raise e, wl) /\
              report label_name ∈ page wl) /\
           (forall fig e,
              fst (lime_predict L spec model wl) = Ok fig ->
              fst (grad_predict L spec model prediction class_label wg) = Raise e ->
              homepage L (Some f) true w = (Raise e, wg) /\
              report label_name ∈ page wg)))).
Proof.
  intros w0. split.
  - intros show_xai e He. rewrite homepage_run, He. reflexivity.
  - intros show_xai model Hm. split.
    + intros e Hc. apply create_spectrogram_failure in Hc.
      rewrite homepage_run, Hm. cbv zeta. fold w0. now rewrite Hc.
    + intros spec w1 Hc wr. split; [| split].
      * intros e Hp. rewrite homepage_run, Hm. cbv zeta. fold w0.
        now rewrite Hc, Hp.
      * intros class_label prediction e Hp Hn. rewrite homepage_run, Hm.
        cbv zeta. fold w0. now rewrite Hc, Hp, Hn.
      * intros class_label prediction label_name Hp Hn wl wg.
        assert (Hrun : homepage L (Some f) true w =
          match lime_predict L spec model wl with
          | (Raise e, w3) => (Raise e, w3)
          | (Ok _, w3) =>
              match grad_predict L spec model prediction class_label
                      (emit w3 (StWrite "### XAI Metrics using Grad-CAM")) with
              | (Raise e, w4) => (Raise e, w4)
              | (Ok _, w4) => (Ok tt, w4)
              end
          end).
        { rewrite homepage_run, Hm. cbv zeta. fold w0. now rewrite Hc, Hp, Hn. }
        assert (Hrep : report label_name ∈ page wl).
        { unfold wl, after_report, emit; simpl.
          apply elem_of_app; left. apply elem_of_app; left.
          apply elem_of_app; right. now left. }
        split.
        -- intros e He. apply lime_predict_failure in He.
           rewrite Hrun, He. split; [reflexivity | exact Hrep].
        -- intros fig e Hf Hg. apply grad_predict_failure in Hg.
           destruct (lime_predict_page L spec model wl) as [evs Hl].
           rewrite Hrun. subst wg.
           destruct (lime_predict L spec model wl) as [[fig' | e'] w3];
             cbn [fst snd] in *; [| discriminate].
           rewrite Hg. split; [reflexivity |].
           unfold emit; cbn [page]. rewrite Hl.
           apply elem_of_app; left. apply elem_of_app; now left.
Qed.

Lemma homepage_stops_at_first_failure_witness :
  (load_model Stub.libs_no_model model_path = Raise Stub.load_error /\
   homepage Stub.libs_no_model (Some Stub.upload) false Stub.world0
   = (Raise StopException,
      emit (after_upload Stub.upload Stub.world0)
           (StError ("Failed to load model: " +:+ exn_msg Stub.load_error)))) /\
  (load_model libs_no_lime model_path = Ok Stub.model /\
   create_spectrogram libs_no_lime (name Stub.upload)
     (after_upload Stub.upload Stub.world0) = (Ok tone_image, uploaded_tone_world) /\
   predictions tone_image Stub.model = Ok (1%Z, [[3 # 10; 7 # 10]%Q]) /\
   getitem class_names 1%Z = Ok "fake" /\
   fst (lime_predict libs_no_lime tone_image Stub.model
          (emit (after_report uploaded_tone_world "fake")
                (StWrite "### XAI Metrics using LIME"))) = Raise lime_error /\
   homepage libs_no_lime (Some Stub.upload) true Stub.world0
   = (Raise lime_error,
      emit (after_report uploaded_tone_world "fake")
           (StWrite "### XAI Metrics using LIME")) /\
   report "fake" ∈ page (emit (after_report uploaded_tone_world "fake")
                              (StWrite "### XAI Metrics using LIME"))).
Proof.
  split.
  - split; [reflexivity |].
    apply (proj1 (homepage_stops_at_first_failure Stub.libs_no_model Stub.upload
                    Stub.world0) false Stub.load_error).
    reflexivity.
  - assert (Hc : create_spectrogram libs_no_lime (name Stub.upload)
                   (after_upload Stub.upload Stub.world0)
                 = (Ok tone_image, uploaded_tone_world))
      by exact (tone_run_uploaded libs_no_lime tone_pipeline).
    assert (Hp : predictions tone_image Stub.model = Ok (1%Z, [[3 # 10; 7 # 10]%Q]))
      by reflexivity.
    assert (Hl : fst (lime_predict libs_no_lime tone_image Stub.model
                        (emit (after_report uploaded_tone_world "fake")
                              (StWrite "### XAI Metrics using LIME")))
                 = Raise lime_error)
      by (rewrite lime_predict_run; reflexivity).
    split; [reflexivity |]. split; [exact Hc |]. split; [exact Hp |].
    split; [reflexivity |]. split; [exact Hl |].
    destruct (homepage_stops_at_first_failure libs_no_lime Stub.upload Stub.world0)
      as [_ Hrun].
    destruct (Hrun true Stub.model eq_refl) as [_ Hspec].
    destruct (Hspec tone_image uploaded_tone_world Hc) as (_ & _ & Hxai).
    destruct (Hxai 1%Z [[3 # 10; 7 # 10]%Q] "fake" Hp eq_refl) as [Hlime _].
    exact (Hlime lime_error Hl).
Defined.

(** C5, as stated, fails: when the model cannot be loaded, what leaves
    [homepage] is [StopException], not the exception of the load. *)
Lemma homepage_hides_load_failure_kind :
  load_model Stub.libs_no_model model_path = Raise Stub.load_error /\
  fst (homepage Stub.libs_no_model (Some Stub.upload) false Stub.world0)
  = Raise StopException /\
  exn_kind StopException <> exn_kind Stub.load_error.
Proof.
  split; [reflexivity |]. split; [| discriminate].
  rewrite homepage_run. reflexivity.
Qed.

(** ** Further properties of the feature extractor *)

(** X1.  What [save_file] stores is what [create_spectrogram] reads: after an
    upload is saved under a name, the spectrogram made for that name is the
    drawing of the uploaded samples, whatever the file system held before. *)
Theorem create_spectrogram_reads_saved_upload L name y sr w :
  fst (create_spectrogram L name (snd (save_file name (WavFile y sr) w)))
  = match library_pipeline L y sr with
    | Ok png => Ok (resize_nearest black 224 224 png)
    | Raise e => Raise e
    end.
Proof.
  rewrite create_spectrogram_run.
  unfold save_file, bindM, write_file, ret, audio_path. cbn [fst snd fs].
  rewrite lookup_insert_eq.
  now destruct (library_pipeline L y sr).
Qed.

(** X3.  A run of [create_spectrogram] that raises leaves the file system and
    the page as they were: no spectrogram file is written and nothing is
    shown. *)
Theorem create_spectrogram_failure_leaves_world L sound w e w' :
  create_spectrogram L sound w = (Raise e, w') -> w' = w.
Proof.
  rewrite create_spectrogram_run.
  destruct (fs w !! audio_path w sound) as [[y sr | img | data] |];
    try (now intros [= _ <-]).
  destruct (library_pipeline L y sr); cbv zeta; [discriminate |].
  now intros [= _ <-].
Qed.

Lemma create_spectrogram_failure_leaves_world_witness :
  create_spectrogram Stub.libs "missing.wav" Stub.world0
  = (Raise (FileNotFoundError "audio_files/missing.wav"), Stub.world0) /\
  Stub.world0 = Stub.world0.
Proof.
  assert (H : create_spectrogram Stub.libs "missing.wav" Stub.world0
              = (Raise (FileNotFoundError "audio_files/missing.wav"), Stub.world0))
    by reflexivity.
  split; [exact H |].
  exact (create_spectrogram_failure_leaves_world Stub.libs "missing.wav"
           Stub.world0 _ Stub.world0 H).
Defined.

(** X4.  When no recording is stored under the name, [create_spectrogram]
    raises [FileNotFoundError] for the path under [audio_files]. *)
Theorem create_spectrogram_missing_recording L sound w :
  fs w !! audio_path w sound = None ->
  create_spectrogram L sound w
  = (Raise (FileNotFoundError (os_path_join "audio_files" sound)), w).
Proof.
  intros H. now rewrite create_spectrogram_run, H.
Qed.

Lemma create_spectrogram_missing_recording_witness :
  fs Stub.world0 !! audio_path Stub.world0 "missing.wav" = None /\
  create_spectrogram Stub.libs "missing.wav" Stub.world0
  = (Raise (FileNotFoundError (os_path_join "audio_files" "missing.wav")), Stub.world0).
Proof.
  split; [reflexivity |].
  apply (create_spectrogram_missing_recording Stub.libs "missing.wav" Stub.world0).
  reflexivity.
Defined.

Lemma tone_run :
  create_spectrogram Stub.libs "tone.wav" Stub.world0 = (Ok tone_image, tone_world).
Proof.
  rewrite create_spectrogram_run.
  replace (fs Stub.world0 !! audio_path Stub.world0 "tone.wav")
    with (Some (WavFile Stub.tone 16000)) by reflexivity.
  replace (library_pipeline Stub.libs Stub.tone 16000)
    with (@Ok pil_image tone_png) by (vm_compute; reflexivity).
  reflexivity.
Qed.

(** X5.  Every image that [create_spectrogram] returns has 224 rows of 224
    pixels with three channels, whatever the recording and whatever the
    libraries drew. *)
Theorem create_spectrogram_image_shape L sound w image_data w' :
  create_spectrogram L sound w = (Ok image_data, w') ->
  is_spectral_image image_data /\
  Forall (Forall (fun px => length px = 3%nat)) (np_array image_data).
Proof.
  rewrite create_spectrogram_run.
  destruct (fs w !! audio_path w sound) as [[y sr | img | data] |]; try discriminate.
  destruct (library_pipeline L y sr) as [png | e]; cbv zeta; [| discriminate].
  intros [= <- _]. split; [apply resize_nearest_shape |].
  unfold np_array. apply Forall_map, Forall_forall. intros row _.
  apply Forall_map, Forall_forall. now intros [[r g] b] _.
Qed.

Lemma create_spectrogram_image_shape_witness :
  create_spectrogram Stub.libs "tone.wav" Stub.world0 = (Ok tone_image, tone_world) /\
  is_spectral_image tone_image /\
  Forall (Forall (fun px => length px = 3%nat)) (np_array tone_image).
Proof.
  split; [exact tone_run |].
  exact (create_spectrogram_image_shape Stub.libs "tone.wav" Stub.world0
           tone_image tone_world tone_run).
Defined.

(** X6.  A run of [create_spectrogram] that returns has written the drawing
    to [melspectrogram.png] in the working directory and nothing else,
    returns that drawing resized, and has added exactly that image to the
    page. *)
Theorem create_spectrogram_effects L sound w image_data w' :
  create_spectrogram L sound w = (Ok image_data, w') ->
  exists png,
    fs w' = <[png_path w := PngFile png]> (fs w) /\
    image_data = resize_nearest black 224 224 png /\
    page w' = page w ++ [StImage image_data].
Proof.
  rewrite create_spectrogram_run.
  destruct (fs w !! audio_path w sound) as [[y sr | img | data] |]; try discriminate.
  destruct (library_pipeline L y sr) as [png | e]; cbv zeta; [| discriminate].
  intros [= <- <-]. exists png. repeat split.
Qed.

Lemma create_spectrogram_effects_witness :
  create_spectrogram Stub.libs "tone.wav" Stub.world0 = (Ok tone_image, tone_world) /\
  exists png,
    fs tone_world = <[png_path Stub.world0 := PngFile png]> (fs Stub.world0) /\
    tone_image = resize_nearest black 224 224 png /\
    page tone_world = page Stub.world0 ++ [StImage tone_image].
Proof.
  split; [exact tone_run |].
  exact (create_spectrogram_effects Stub.libs "tone.wav" Stub.world0
           tone_image tone_world tone_run).
Defined.

(** X7.  Running [create_spectrogram] a second time leaves the file system as
    the first run left it: the spectrogram file is overwritten with the same
    drawing. *)
Theorem create_spectrogram_twice_same_files L sound w :
  let w1 := snd (create_spectrogram L sound w) in
  fs (snd (create_spectrogram L sound w1)) = fs w1.
Proof.
  intros w1.
  pose proof (create_spectrogram_cwd L sound w) as Hcwd. fold w1 in Hcwd.
  assert (Hpath : audio_path w1 sound = audio_path w sound)
    by (unfold audio_path; now rewrite Hcwd).
  assert (Hpng : png_path w1 = png_path w)
    by (unfold png_path; now rewrite Hcwd).
  rewrite (create_spectrogram_run L sound w1), Hpath, Hpng.
  destruct (decide (audio_path w sound = png_path w)) as [Halias | Hne].
  - unfold w1. rewrite (create_spectrogram_run L sound w).
    destruct (fs w !! audio_path w sound) as [[y sr | img | data] |] eqn:Hf;
      cbn [snd]; rewrite ?Hf; try reflexivity.
    destruct (library_pipeline L y sr) as [png | e] eqn:Hp; cbv zeta;
      cbn [snd fs].
    + now rewrite Halias, lookup_insert_eq.
    + now rewrite Hf, Hp.
  - pose proof (create_spectrogram_keeps_audio L sound w Hne) as Hkeep.
    fold w1 in Hkeep. rewrite Hkeep.
    unfold w1. rewrite (create_spectrogram_run L sound w).
    destruct (fs w !! audio_path w sound) as [[y sr | img | data] |];
      try reflexivity.
    destruct (library_pipeline L y sr) as [png | e]; cbv zeta; [| reflexivity].
    cbn [fst snd fs]. apply insert_insert_eq.
Qed.

(** ** Further properties of the classifier adapter and the explainers *)

(** X8.  [predictions] raises in exactly two cases: the model raises, and
    then that exception is passed on, or the model returns an empty array, and
    then [np.argmax] raises [ValueError]. *)
Theorem predictions_failures image_data model e :
  predictions image_data model = Raise e <->
  predict model [rescaled image_data] = Raise e \/
  (exists p, predict model [rescaled image_data] = Ok p /\ concat p = [] /\
             e = ValueError "attempt to get argmax of an empty sequence").
Proof.
  unfold predictions, Np.expand_dims0, rescaled, Np.argmax. cbv zeta.
  destruct (predict model _) as [p | e0]; simpl.
  - destruct (concat p) as [| v l] eqn:Hp; simpl; split.
    + intros [= <-]. right. exists p. auto.
    + intros [H | (p' & [= <-] & _ & ->)]; [discriminate | reflexivity].
    + discriminate.
    + intros [H | (p' & [= <-] & H & _)]; [discriminate | congruence].
  - split.
    + intros [= <-]. now left.
    + intros [[= <-] | (p' & H & _)]; [reflexivity | discriminate].
Qed.

Lemma predictions_failures_witness :
  (exists p, predict empty_model [rescaled Stub.pixel] = Ok p /\ concat p = [] /\
             ValueError "attempt to get argmax of an empty sequence"
             = ValueError "attempt to get argmax of an empty sequence") /\
  predictions Stub.pixel empty_model
  = Raise (ValueError "attempt to get argmax of an empty sequence").
Proof.
  assert (H : exists p, predict empty_model [rescaled Stub.pixel] = Ok p /\
                        concat p = [] /\
                        ValueError "attempt to get argmax of an empty sequence"
                        = ValueError "attempt to get argmax of an empty sequence")
    by (exists []; repeat split).
  split; [exact H |].
  apply (proj2 (predictions_failures Stub.pixel empty_model _)). right. exact H.
Defined.

Lemma getitem_Ok {A} (l : list A) i x :
  getitem l i = Ok x ->
  x ∈ l /\ (- Z.of_nat (length l) <= i < Z.of_nat (length l))%Z.
Proof.
  unfold getitem.
  destruct (i <? 0)%Z eqn:Hneg;
    (destruct (_ && _)%bool eqn:Hin; [| discriminate]);
    (destruct (l !! _) as [y |] eqn:Hl; [| discriminate]);
    intros [= <-]; apply andb_true_iff in Hin as [H0 H1];
    apply Z.leb_le in H0; apply Z.ltb_lt in H1;
    (split; [eapply list_elem_of_lookup_2; exact Hl |]).
  - apply Z.ltb_lt in Hneg. lia.
  - apply Z.ltb_ge in Hneg. lia.
Qed.

(** X9.  [lime_predict] writes no file of its own (what the libraries cache
    is not part of the world).  When it raises, the
    page is as it was; when it returns, the page has gained exactly the
    figure returned: the original image beside the marked regions, titled
    with the name of a class of the vocabulary. *)
Theorem lime_predict_effects L image_data model w :
  match lime_predict L image_data model w with
  | (Raise _, w') => w' = w
  | (Ok fig, w') =>
      fs w' = fs w /\ page w' = page w ++ [StPyplot fig] /\
      exists label_name marked,
        label_name ∈ class_names /\
        fig = [ Axes (PicImage image_data) "Original Image";
                Axes marked ("Predicted class: " +:+ label_name) ]
  end.
Proof.
  rewrite lime_predict_run.
  destruct (lime_explain L image_data model) as [parts | e]; [| reflexivity].
  destruct (getitem class_names _) as [label_name | e] eqn:Hn; [| reflexivity].
  cbv zeta. split; [reflexivity |]. split; [reflexivity |].
  apply getitem_Ok in Hn as [Hn _]. eauto.
Qed.

(** X10.  [grad_predict] returns only for a class index from -2 to 1: the
    title looks the index up in the two-element vocabulary, where Python
    counts negative indices from the end. *)
Theorem grad_predict_returns_only_in_vocabulary
    L image_data model preds class_idx w superimposed_img w' :
  grad_predict L image_data model preds class_idx w = (Ok superimposed_img, w') ->
  (-2 <= class_idx < 2)%Z.
Proof.
  rewrite grad_predict_run.
  destruct (grad_overlay L image_data class_idx); [| discriminate].
  destruct (getitem class_names class_idx) eqn:Hn; [| discriminate].
  intros _. now apply getitem_Ok in Hn as [_ Hn].
Qed.

(** X11.  [grad_predict] writes no file of its own (what the libraries
    cache, such as the downloaded VGG16 weights, is not part of the world).
    When it raises, the
    page is as it was; when it returns, the page has gained exactly one
    figure, which shows the original image beside the image returned, titled
    with the name of a class of the vocabulary. *)
Theorem grad_predict_effects L image_data model preds class_idx w :
  match grad_predict L image_data model preds class_idx w with
  | (Raise _, w') => w' = w
  | (Ok superimposed_img, w') =>
      fs w' = fs w /\
      exists label_name,
        label_name ∈ class_names /\
        page w' = page w ++
          [StPyplot [ Axes (PicImage image_data) "Original Image";
                      Axes (PicUint8 superimposed_img)
                           ("Grad-CAM: " +:+ label_name) ]]
  end.
Proof.
  rewrite grad_predict_run.
  destruct (grad_overlay L image_data class_idx); [| reflexivity].
  destruct (getitem class_names class_idx) as [label_name | e] eqn:Hn;
    [| reflexivity].
  split; [reflexivity |]. apply getitem_Ok in Hn as [Hn _]. eauto.
Qed.

Lemma grad_predict_returns_only_in_vocabulary_witness :
  grad_predict Stub.libs Stub.pixel Stub.model [] (-1)%Z Stub.world0
  = (Ok pixel_overlay,
     emit Stub.world0
       (StPyplot [ Axes (PicImage Stub.pixel) "Original Image";
                   Axes (PicUint8 pixel_overlay) "Grad-CAM: fake" ])) /\
  (-2 <= -1 < 2)%Z.
Proof.
  assert (H : grad_predict Stub.libs Stub.pixel Stub.model [] (-1)%Z Stub.world0
    = (Ok pixel_overlay,
       emit Stub.world0
         (StPyplot [ Axes (PicImage Stub.pixel) "Original Image";
                     Axes (PicUint8 pixel_overlay) "Grad-CAM: fake" ])))
    by (rewrite grad_predict_run; reflexivity).
  split; [exact H |].
  exact (grad_predict_returns_only_in_vocabulary _ _ _ _ _ _ _ _ H).
Defined.

(** ** Further properties of the class-activation map *)

Lemma reduce_mean_finite grads :
  concat (concat grads) <> [] -> Forall finite (reduce_mean_012 grads).
Proof.
  intros Hne. unfold reduce_mean_012.
  apply Forall_map, Forall_forall. intros s _. simpl.
  destruct (Qeq_bool _ 0) eqn:Hn; [| eexists; reflexivity].
  apply Qeq_bool_iff in Hn. unfold Qeq in Hn; simpl in Hn.
  destruct (concat (concat grads)); [congruence | simpl in Hn; lia].
Qed.

Lemma fsum_finite (px : list Q) : forall weights,
  Forall finite weights ->
  finite (fsum (zip_with (fun v wc => fmul (Fin v) wc) px weights)).
Proof.
  unfold fsum.
  induction px as [| v px IH]; intros weights Hw; [eexists; reflexivity |].
  destruct Hw as [| wc weights [q ->] Hw]; [eexists; reflexivity |].
  destruct (IH weights Hw) as [r Hr].
  cbn [zip_with fold_right]. rewrite Hr. eexists. reflexivity.
Qed.

Lemma weighted_sum_finite a weights :
  Forall finite weights -> Forall (Forall finite) (weighted_sum a weights).
Proof.
  intros Hw. unfold weighted_sum.
  apply Forall_map, Forall_forall. intros row _.
  apply Forall_map, Forall_forall. intros px _.
  now apply fsum_finite.
Qed.

Lemma reduce_max_attained l : forall m,
  Forall finite l -> fold_right fmaximum NInf l = Fin m ->
  Exists (fun v => exists q, v = Fin q /\ (q == m)%Q) l.
Proof.
  induction l as [| x l IH]; intros m Hfin Hm; [discriminate Hm |].
  apply Forall_cons in Hfin as [[qx ->] Hfin]. simpl in Hm.
  destruct (reduce_finite l Hfin) as [[-> Hl] | [qm Hl]]; rewrite Hl in Hm;
    simpl in Hm; injection Hm as <-.
  - left. exists qx. split; reflexivity.
  - destruct (Q.max_spec qx qm) as [[_ Heq] | [_ Heq]].
    + right. eapply Exists_impl; [exact (IH qm Hfin Hl) |].
      intros v (q & -> & Hq). exists q. split; [reflexivity |].
      now rewrite Heq.
    + left. exists qx. split; [reflexivity | now rewrite Heq].
Qed.

Lemma normalize_attains_one heatmap m :
  Forall (Forall finite) heatmap ->
  reduce_max heatmap = Fin m -> (0 < m)%Q ->
  Exists (Exists is_one) (normalize heatmap).
Proof.
  intros Hfin Hm Hpos.
  pose proof (reduce_max_attained _ m (proj2 (Forall_concat _ _) Hfin) Hm) as Hat.
  apply Exists_exists in Hat as (v & Hv & q & -> & Hq).
  apply list_elem_of_In, in_concat in Hv as (row & Hrow & Hv).
  unfold normalize. rewrite Hm.
  apply Exists_exists. eexists. split.
  { apply list_elem_of_In, in_map, Hrow. }
  apply Exists_exists. eexists. split.
  { apply list_elem_of_In, in_map, Hv. }
  simpl. destruct (Qeq_bool m 0) eqn:Hz.
  - apply Qeq_bool_iff in Hz. rewrite Hz in Hpos. now apply Qlt_irrefl in Hpos.
  - eexists. split; [reflexivity |].
    assert (Hmax : (Qmax q 0 == m)%Q).
    { rewrite Q.max_l; [exact Hq | rewrite Hq; now apply Qlt_le_weak]. }
    rewrite Hmax. apply Qmult_inv_r.
    intros H0. rewrite H0 in Hpos. now apply Qlt_irrefl in Hpos.
Qed.

(** X12.  When the gradient has at least one position and the weighted sum
    of activations has a positive maximum, every value of the normalized map
    of [grad_predict] lies in [0,1], and the value 1 is attained. *)
Theorem grad_cam_in_unit a grads m :
  concat (concat grads) <> [] ->
  reduce_max (weighted_sum a (reduce_mean_012 grads)) = Fin m ->
  (0 < m)%Q ->
  Forall (Forall unit_value) (grad_cam a grads) /\
  Exists (Exists is_one) (grad_cam a grads).
Proof.
  intros Hne Hm Hpos. unfold grad_cam. cbv zeta.
  pose proof (weighted_sum_finite a _ (reduce_mean_finite grads Hne)) as Hfin.
  split.
  - now apply normalize_in_unit with m.
  - now apply normalize_attains_one with m.
Qed.

Lemma grad_cam_in_unit_witness :
  concat (concat small_gradient) <> [] /\
  reduce_max (weighted_sum small_activations (reduce_mean_012 small_gradient))
  = Fin (16 # 16) /\
  (0 < 16 # 16)%Q /\
  Forall (Forall unit_value) (grad_cam small_activations small_gradient) /\
  Exists (Exists is_one) (grad_cam small_activations small_gradient).
Proof.
  split; [discriminate |]. split; [reflexivity |]. split; [reflexivity |].
  apply (grad_cam_in_unit small_activations small_gradient (16 # 16));
    [discriminate | reflexivity | reflexivity].
Defined.

Lemma reduce_negative l :
  Forall negative l ->
  l = [] \/ exists m, fold_right fmaximum NInf l = Fin m /\ (m < 0)%Q.
Proof.
  induction 1 as [| x l (qx & -> & Hx) Hl IH]; [now left |].
  right. simpl. destruct IH as [-> | (qm & -> & Hqm)]; simpl.
  - now exists qx.
  - exists (Qmax qx qm). split; [reflexivity |].
    now apply Q.max_lub_lt.
Qed.

(** X13.  When every entry of the weighted sum of activations is negative,
    the normalized map of [grad_predict] is zero everywhere: the clamped
    entries, all 0, are divided by the negative maximum of the unclamped
    map. *)
Theorem grad_cam_all_negative a grads :
  Forall (Forall negative) (weighted_sum a (reduce_mean_012 grads)) ->
  Forall (Forall is_zero) (grad_cam a grads).
Proof.
  unfold grad_cam. cbv zeta.
  generalize (weighted_sum a (reduce_mean_012 grads)). intros heatmap Hneg.
  unfold normalize, reduce_max.
  destruct (reduce_negative (concat heatmap) (proj2 (Forall_concat _ _) Hneg))
    as [Hnil | (m & -> & Hm)].
  - apply Forall_map, Forall_forall. intros row Hrow.
    apply Forall_map, Forall_forall. intros v Hv. exfalso.
    assert (Hin : v ∈ concat heatmap).
    { apply list_elem_of_In, in_concat. exists row. split; now apply list_elem_of_In. }
    rewrite Hnil in Hin. inversion Hin.
  - apply Forall_map. eapply Forall_impl; [exact Hneg |]. intros row Hrow; simpl.
    apply Forall_map. eapply Forall_impl; [exact Hrow |].
    intros v (q & -> & Hq); simpl.
    destruct (Qeq_bool m 0) eqn:Hz.
    + apply Qeq_bool_iff in Hz. rewrite Hz in Hm. now apply Qlt_irrefl in Hm.
    + eexists. split; [reflexivity |].
      rewrite Q.max_r by now apply Qlt_le_weak.
      apply Qmult_0_l.
Qed.

Lemma grad_cam_all_negative_witness :
  Forall (Forall negative)
    (weighted_sum [[[1; 2]]]%Q (reduce_mean_012 [[[[-1; -3]]]%Q])) /\
  Forall (Forall is_zero) (grad_cam [[[1; 2]]]%Q [[[[-1; -3]]]%Q]).
Proof.
  assert (H : Forall (Forall negative)
                (weighted_sum [[[1; 2]]]%Q (reduce_mean_012 [[[[-1; -3]]]%Q]))).
  { repeat constructor. eexists. split; reflexivity. }
  split; [exact H |].
  exact (grad_cam_all_negative _ _ H).
Defined.

(** X14.  Given a [cv2.resize] that returns the requested size, the map that
    [grad_predict] blends over the image has the height and the width of the
    input image, in that order, for any rectangular image with at least one
    row. *)
Theorem upsampled_heatmap_matches_input L image_data h wd heatmap :
  cv2_resize_contract L ->
  has_size image_data h wd -> (0 < h)%nat ->
  let x := vgg16_preprocess_input (Np.expand_dims0 (img_to_array image_data)) in
  length (upsampled_heatmap L x heatmap) = h /\
  Forall (fun row => length row = wd) (upsampled_heatmap L x heatmap).
Proof.
  intros Hcv [Hh Hw] Hpos x. unfold upsampled_heatmap. cbv zeta.
  destruct (Hcv heatmap (length (nth 0 (nth 0 x []) [])) (length (nth 0 x [])))
    as [Hlen Hrows].
  assert (Hx0 : length (nth 0 x []) = h).
  { unfold x, vgg16_preprocess_input, Np.expand_dims0, img_to_array, Np.map3, np_array.
    simpl. now rewrite !length_map. }
  assert (Hx00 : length (nth 0 (nth 0 x []) []) = wd).
  { unfold x, vgg16_preprocess_input, Np.expand_dims0, img_to_array, Np.map3, np_array.
    simpl. destruct image_data as [| row rows]; [simpl in Hh; lia |].
    apply Forall_cons in Hw as [Hrow _]. simpl. now rewrite !length_map. }
  now rewrite Hx0, Hx00 in *.
Qed.

Lemma stub_cv2_resize_contract : cv2_resize_contract Stub.libs.
Proof.
  intros src width height.
  exact (resize_nearest_shape (Fin 0) height width src).
Qed.

Lemma upsampled_heatmap_matches_input_witness :
  cv2_resize_contract Stub.libs /\
  has_size wide_picture 2 3 /\ (0 < 2)%nat /\
  (let x := vgg16_preprocess_input (Np.expand_dims0 (img_to_array wide_picture)) in
   length (upsampled_heatmap Stub.libs x [[Fin 1]]) = 2%nat /\
   Forall (fun row => length row = 3%nat) (upsampled_heatmap Stub.libs x [[Fin 1]])).
Proof.
  assert (Hsize : has_size wide_picture 2 3) by (split; repeat constructor).
  split; [exact stub_cv2_resize_contract |]. split; [exact Hsize |].
  split; [lia |].
  apply (upsampled_heatmap_matches_input Stub.libs wide_picture 2 3 [[Fin 1]]
           stub_cv2_resize_contract Hsize).
  lia.
Defined.

(** ** Further properties of the orchestrator *)

Lemma create_spectrogram_other_files L sound w path :
  path <> png_path w ->
  fs (snd (create_spectrogram L sound w)) !! path = fs w !! path.
Proof.
  intros Hp. rewrite create_spectrogram_run.
  destruct (fs w !! audio_path w sound) as [[y sr | img | data] |]; try reflexivity.
  destruct (library_pipeline L y sr); cbv zeta; [| reflexivity].
  cbn [snd fs]. apply lookup_insert_ne. congruence.
Qed.

Lemma lime_predict_files L image_data model w :
  fs (snd (lime_predict L image_data model w)) = fs w.
Proof.
  rewrite lime_predict_run.
  destruct (lime_explain L image_data model); [| reflexivity].
  now destruct (getitem class_names _).
Qed.

Lemma grad_predict_files L image_data model preds class_idx w :
  fs (snd (grad_predict L image_data model preds class_idx w)) = fs w.
Proof.
  rewrite grad_predict_run.
  destruct (grad_overlay L image_data class_idx); [| reflexivity].
  now destruct (getitem class_names class_idx).
Qed.

(** X15.  A run of [homepage] writes at most two files of its own: the
    file the upload's name resolves to under [audio_files], and
    [melspectrogram.png] in the working directory.  Every other file, named
    by its canonical path, holds after the run what it held before, whether
    the run returns or raises.  (What the libraries cache is not part of the
    world.) *)
Theorem homepage_writes_two_files L uploaded_file show_xai w path :
  path <> png_path w ->
  (forall f, uploaded_file = Some f -> path <> audio_path w (name f)) ->
  fs (snd (homepage L uploaded_file show_xai w)) !! path = fs w !! path.
Proof.
  intros Hpng Hup. destruct uploaded_file as [f |]; [| reflexivity].
  specialize (Hup f eq_refl).
  assert (H0 : fs (after_upload f w) !! path = fs w !! path).
  { unfold after_upload. cbv zeta. cbn [fs]. apply lookup_insert_ne.
    intros H. apply Hup. symmetry. exact H. }
  rewrite homepage_run. cbv zeta.
  destruct (load_model L model_path) as [model | e]; [| exact H0].
  pose proof (create_spectrogram_other_files L (name f) (after_upload f w) path Hpng)
    as H1.
  destruct (create_spectrogram L (name f) (after_upload f w)) as [[spec | e] w1];
    cbn [snd] in H1 |- *; [| now rewrite H1].
  destruct (predictions spec model) as [[class_label prediction] | e];
    [| cbn [snd emit fs]; now rewrite H1].
  destruct (getitem class_names class_label) as [label_name | e];
    [| cbn [snd emit fs]; now rewrite H1].
  destruct show_xai; [| unfold after_report; cbn [snd emit fs]; now rewrite H1].
  match goal with
  | |- context [lime_predict L spec model ?wl] =>
      pose proof (lime_predict_files L spec model wl) as H2;
      destruct (lime_predict L spec model wl) as [[fig | e] w3]
  end; unfold after_report in H2; cbn [snd emit fs] in H2;
    [| cbn [snd]; now rewrite H2, H1].
  match goal with
  | |- context [grad_predict L spec model prediction class_label ?wg] =>
      pose proof (grad_predict_files L spec model prediction class_label wg) as H3;
      destruct (grad_predict L spec model prediction class_label wg) as [[img | e] w4]
  end; cbn [snd emit fs] in H3; cbn [snd]; now rewrite H3, H2, H1.
Qed.

Lemma homepage_writes_two_files_witness :
  "/app/notes.txt" <> png_path Stub.world1 /\
  (forall f, Some Stub.upload = Some f ->
             "/app/notes.txt" <> audio_path Stub.world1 (name f)) /\
  fs (snd (homepage Stub.libs (Some Stub.upload) true Stub.world1)) !! "/app/notes.txt"
  = fs Stub.world1 !! "/app/notes.txt".
Proof.
  assert (Hpng : "/app/notes.txt" <> png_path Stub.world1)
    by (vm_compute; discriminate).
  assert (Hup : forall f, Some Stub.upload = Some f ->
                          "/app/notes.txt" <> audio_path Stub.world1 (name f))
    by (intros f [= <-]; vm_compute; discriminate).
  split; [exact Hpng |]. split; [exact Hup |].
  exact (homepage_writes_two_files Stub.libs (Some Stub.upload) true Stub.world1
           "/app/notes.txt" Hpng Hup).
Defined.

Lemma page_extends_refl w : page_extends w w.
Proof. exists []. now rewrite app_nil_r. Qed.

Lemma page_extends_trans w1 w2 w3 :
  page_extends w1 w2 -> page_extends w2 w3 -> page_extends w1 w3.
Proof.
  intros [e1 H1] [e2 H2]. exists (e1 ++ e2). now rewrite H2, H1, app_assoc.
Qed.

Lemma page_extends_emit w ev : page_extends w (emit w ev).
Proof. now exists [ev]. Qed.

Lemma create_spectrogram_page L sound w :
  page_extends w (snd (create_spectrogram L sound w)).
Proof.
  rewrite create_spectrogram_run.
  destruct (fs w !! audio_path w sound) as [[y sr | img | data] |];
    try apply page_extends_refl.
  destruct (library_pipeline L y sr); cbv zeta; [| apply page_extends_refl].
  eexists. reflexivity.
Qed.

(** X16.  [homepage] only adds to the page: whatever the page showed before
    the run is still there, in order, after it, whether the run returns or
    raises. *)
Theorem homepage_only_adds_to_page L uploaded_file show_xai w :
  page_extends w (snd (homepage L uploaded_file show_xai w)).
Proof.
  destruct uploaded_file as [f |].
  2:{ exists [StWrite "___"; StSubheader "Choose a wav file";
              StFileUploader "Upload .wav audio file";
              StInfo "Please upload a .wav file"].
      unfold homepage, bindM, st_emit. cbn [snd page fs cwd].
      now rewrite <- !app_assoc. }
  assert (H0 : page_extends w (after_upload f w)).
  { eexists. unfold after_upload, emit. cbn [page]. rewrite <- !app_assoc.
    reflexivity. }
  rewrite homepage_run. cbv zeta.
  destruct (load_model L model_path) as [model | e].
  2:{ eapply page_extends_trans; [exact H0 | apply page_extends_emit]. }
  pose proof (create_spectrogram_page L (name f) (after_upload f w)) as H1.
  destruct (create_spectrogram L (name f) (after_upload f w)) as [[spec | e] w1];
    cbn [snd] in *; [| eapply page_extends_trans; eassumption].
  assert (H1' : page_extends w (emit w1 (StWrite "### Classification results:"))).
  { eapply page_extends_trans; [exact H0 |].
    eapply page_extends_trans; [exact H1 | apply page_extends_emit]. }
  destruct (predictions spec model) as [[class_label prediction] | e];
    [| exact H1'].
  destruct (getitem class_names class_label) as [label_name | e]; [| exact H1'].
  assert (H2 : page_extends w (after_report w1 label_name)).
  { eapply page_extends_trans; [exact H1' |].
    eapply page_extends_trans; apply page_extends_emit. }
  destruct show_xai; [| exact H2].
  match goal with
  | |- context [lime_predict L spec model ?wl] =>
      assert (H3 : page_extends w (snd (lime_predict L spec model wl)))
        by (eapply page_extends_trans;
            [eapply page_extends_trans; [exact H2 | apply page_extends_emit]
            | apply lime_predict_page]);
      destruct (lime_predict L spec model wl) as [[fig | e] w3]
  end; cbn [snd] in *; [| exact H3].
  match goal with
  | |- context [grad_predict L spec model prediction class_label ?wg] =>
      assert (H4 : page_extends w
                     (snd (grad_predict L spec model prediction class_label wg)))
        by (eapply page_extends_trans;
            [eapply page_extends_trans; [exact H3 | apply page_extends_emit]
            | apply grad_predict_page]);
      destruct (grad_predict L spec model prediction class_label wg)
        as [[img | e] w4]
  end; exact H4.
Qed.

(** X17.  The two explainers run one after the other: when [lime_predict]
    raises, [homepage] ends there with that exception, the page stops at the
    LIME heading, and Grad-CAM is not started. *)
Theorem homepage_lime_failure_skips_grad_cam
    L f w model spec w1 class_label prediction label_name e :
  load_model L model_path = Ok model ->
  create_spectrogram L (name f) (after_upload f w) = (Ok spec, w1) ->
  predictions spec model = Ok (class_label, prediction) ->
  getitem class_names class_label = Ok label_name ->
  let wl := emit (after_report w1 label_name)
                 (StWrite "### XAI Metrics using LIME") in
  fst (lime_predict L spec model wl) = Raise e ->
  homepage L (Some f) true w = (Raise e, wl).
Proof.
  intros Hm Hc Hp Hn wl Hl.
  rewrite homepage_run, Hm. cbv zeta. rewrite Hc, Hp, Hn.
  fold (after_report w1 label_name). fold wl.
  rewrite lime_predict_run in *.
  destruct (lime_explain L spec model) as [parts | e0];
    [| now injection Hl as ->].
  destruct (getitem class_names (lime_class_label parts)) as [nm | e0];
    [discriminate | now injection Hl as ->].
Qed.

Lemma homepage_lime_failure_skips_grad_cam_witness :
  load_model libs_no_lime model_path = Ok Stub.model /\
  create_spectrogram libs_no_lime (name Stub.upload)
    (after_upload Stub.upload Stub.world0) = (Ok tone_image, uploaded_tone_world) /\
  predictions tone_image Stub.model = Ok (1%Z, [[3 # 10; 7 # 10]%Q]) /\
  getitem class_names 1%Z = Ok "fake" /\
  fst (lime_predict libs_no_lime tone_image Stub.model
         (emit (after_report uploaded_tone_world "fake")
               (StWrite "### XAI Metrics using LIME"))) = Raise lime_error /\
  homepage libs_no_lime (Some Stub.upload) true Stub.world0
  = (Raise lime_error,
     emit (after_report uploaded_tone_world "fake")
          (StWrite "### XAI Metrics using LIME")).
Proof.
  assert (Hc : create_spectrogram libs_no_lime (name Stub.upload)
                 (after_upload Stub.upload Stub.world0)
               = (Ok tone_image, uploaded_tone_world))
    by exact (tone_run_uploaded libs_no_lime tone_pipeline).
  assert (Hp : predictions tone_image Stub.model = Ok (1%Z, [[3 # 10; 7 # 10]%Q]))
    by reflexivity.
  assert (Hl : fst (lime_predict libs_no_lime tone_image Stub.model
                      (emit (after_report uploaded_tone_world "fake")
                            (StWrite "### XAI Metrics using LIME")))
               = Raise lime_error)
    by (rewrite lime_predict_run; reflexivity).
  split; [reflexivity |]. split; [exact Hc |]. split; [exact Hp |].
  split; [reflexivity |]. split; [exact Hl |].
  exact (homepage_lime_failure_skips_grad_cam libs_no_lime Stub.upload Stub.world0
           Stub.model tone_image uploaded_tone_world 1%Z [[3 # 10; 7 # 10]%Q]
           "fake" lime_error eq_refl Hc Hp eq_refl Hl).
Defined.





(** X19.  When the model's highest score is at index 2 or beyond, as with a
    model of more than two classes, [homepage] raises [IndexError] at the
    lookup of the class name: the page stops at the results heading and no
    classification is reported. *)
Theorem homepage_label_outside_vocabulary
    L f show_xai w model spec w1 class_label prediction :
  load_model L model_path = Ok model ->
  create_spectrogram L (name f) (after_upload f w) = (Ok spec, w1) ->
  predictions spec model = Ok (class_label, prediction) ->
  (2 <= class_label)%Z ->
  homepage L (Some f) show_xai w
  = (Raise IndexError, emit w1 (StWrite "### Classification results:")).
Proof.
  intros Hm Hc Hp Hl.
  rewrite homepage_run, Hm. cbv zeta. rewrite Hc, Hp.
  now rewrite (getitem_class_names_out_of_range _ Hl).
Qed.

Lemma three_class_pipeline :
  library_pipeline libs_three_classes Stub.tone 16000 = Ok tone_png.
Proof. vm_compute. reflexivity. Qed.

Lemma homepage_label_outside_vocabulary_witness :
  load_model libs_three_classes model_path = Ok three_class_model /\
  create_spectrogram libs_three_classes (name Stub.upload)
    (after_upload Stub.upload Stub.world0) = (Ok tone_image, uploaded_tone_world) /\
  predictions tone_image three_class_model
  = Ok (2%Z, [[1 # 10; 2 # 10; 7 # 10]%Q]) /\
  (2 <= 2)%Z /\
  homepage libs_three_classes (Some Stub.upload) false Stub.world0
  = (Raise IndexError,
     emit uploaded_tone_world (StWrite "### Classification results:")).
Proof.
  assert (Hc : create_spectrogram libs_three_classes (name Stub.upload)
                 (after_upload Stub.upload Stub.world0)
               = (Ok tone_image, uploaded_tone_world))
    by exact (tone_run_uploaded libs_three_classes three_class_pipeline).
  assert (Hp : predictions tone_image three_class_model
               = Ok (2%Z, [[1 # 10; 2 # 10; 7 # 10]%Q])) by reflexivity.
  split; [reflexivity |]. split; [exact Hc |]. split; [exact Hp |].
  split; [lia |].
  apply (homepage_label_outside_vocabulary libs_three_classes Stub.upload false
           Stub.world0 three_class_model tone_image uploaded_tone_world 2%Z
           [[1 # 10; 2 # 10; 7 # 10]%Q] eq_refl Hc Hp).
  lia.
Defined.

Lemma create_spectrogram_shows_image L sound w image_data w' :
  create_spectrogram L sound w = (Ok image_data, w') ->
  page w' = page w ++ [StImage image_data].
Proof.
  rewrite create_spectrogram_run.
  destruct (fs w !! audio_path w sound) as [[y sr | img | data] |]; try discriminate.
  destruct (library_pipeline L y sr) as [png | e]; cbv zeta; [| discriminate].
  now intros [= <- <-].
Qed.

Lemma lime_label_is_predicted L image_data model class_label prediction parts :
  predictions image_data model = Ok (class_label, prediction) ->
  lime_explain L image_data model = Ok parts ->
  lime_class_label parts = class_label.
Proof.
  unfold predictions, lime_explain, Np.expand_dims0. cbv zeta.
  destruct (Lime.explain_instance _ _ _ _ _ _); simpl; [| discriminate].
  destruct (predict model _) as [p | err]; simpl; [| discriminate].
  destruct (Np.argmax p) as [l | err]; simpl; [| discriminate].
  now intros [= <- _] [= <-].
Qed.

(** X20.  When a run of [homepage] with the XAI button returns, the three
    places that name a class agree: the reported line, the title of the LIME
    figure and the title of the Grad-CAM figure carry the same class name,
    and both figures show the spectrogram that was displayed.  The page
    after the player is listed in full, the button included. *)
Theorem homepage_names_one_class L f w w' :
  homepage L (Some f) true w = (Ok tt, w') ->
  exists spec label_name marked superimposed_img,
    label_name ∈ class_names /\
    page w' = page (after_upload f w) ++
      [ StImage spec;
        StWrite "### Classification results:";
        report label_name;
        StButton "Show XAI Metrics";
        StWrite "### XAI Metrics using LIME";
        StPyplot [ Axes (PicImage spec) "Original Image";
                   Axes marked ("Predicted class: " +:+ label_name) ];
        StWrite "### XAI Metrics using Grad-CAM";
        StPyplot [ Axes (PicImage spec) "Original Image";
                   Axes (PicUint8 superimposed_img)
                        ("Grad-CAM: " +:+ label_name) ] ].
Proof.
  rewrite homepage_run. cbv zeta.
  destruct (load_model L model_path) as [model | e]; [| discriminate].
  pose proof (create_spectrogram_shows_image L (name f) (after_upload f w)) as Hc.
  destruct (create_spectrogram L (name f) (after_upload f w)) as [[spec | e] w1];
    [| discriminate].
  destruct (predictions spec model) as [[class_label prediction] | e] eqn:Hp;
    [| discriminate].
  destruct (getitem class_names class_label) as [label_name | e] eqn:Hn;
    [| discriminate].
  rewrite lime_predict_run.
  destruct (lime_explain L spec model) as [parts | e] eqn:Hl; [| discriminate].
  rewrite (lime_label_is_predicted L spec model class_label prediction parts Hp Hl), Hn.
  cbv beta iota zeta. rewrite grad_predict_run.
  destruct (grad_overlay L spec class_label) as [img | e]; [| discriminate].
  rewrite Hn. intros [= <-].
  exists spec, label_name. eexists. exists img.
  split; [now apply getitem_Ok in Hn as [Hn _] |].
  unfold after_report, emit. cbn [page]. rewrite (Hc spec w1 eq_refl).
  now rewrite <- !app_assoc.
Qed.

Lemma one_region_pipeline :
  library_pipeline libs_one_region Stub.tone 16000 = Ok tone_png.
Proof. vm_compute. reflexivity. Qed.

Lemma xai_run :
  homepage libs_one_region (Some Stub.upload) true Stub.world0 = (Ok tt, xai_world).
Proof.
  rewrite homepage_run. cbv zeta.
  change (load_model libs_one_region model_path) with (Ok Stub.model).
  change (name Stub.upload) with "tone.wav". fold uploaded_world.
  rewrite (tone_run_uploaded libs_one_region one_region_pipeline).
  replace (predictions tone_image Stub.model) with (Ok (1%Z, [[3 # 10; 7 # 10]%Q]))
    by reflexivity.
  cbv beta iota zeta.
  change (getitem class_names 1%Z) with (Ok "fake").
  cbv beta iota zeta.
  rewrite lime_predict_run.
  replace (lime_explain libs_one_region tone_image Stub.model) with (Ok tone_parts)
    by reflexivity.
  change (getitem class_names (lime_class_label tone_parts)) with (Ok "fake").
  cbv beta iota zeta. rewrite grad_predict_run.
  replace (grad_overlay libs_one_region tone_image 1%Z) with (Ok tone_overlay)
    by reflexivity.
  change (getitem class_names 1%Z) with (Ok "fake").
  reflexivity.
Qed.

Lemma homepage_names_one_class_witness :
  homepage libs_one_region (Some Stub.upload) true Stub.world0 = (Ok tt, xai_world) /\
  exists spec label_name marked superimposed_img,
    label_name ∈ class_names /\
    page xai_world = page (after_upload Stub.upload Stub.world0) ++
      [ StImage spec;
        StWrite "### Classification results:";
        report label_name;
        StButton "Show XAI Metrics";
        StWrite "### XAI Metrics using LIME";
        StPyplot [ Axes (PicImage spec) "Original Image";
                   Axes marked ("Predicted class: " +:+ label_name) ];
        StWrite "### XAI Metrics using Grad-CAM";
        StPyplot [ Axes (PicImage spec) "Original Image";
                   Axes (PicUint8 superimposed_img)
                        ("Grad-CAM: " +:+ label_name) ] ].
Proof.
  split; [exact xai_run |].
  exact (homepage_names_one_class libs_one_region Stub.upload Stub.world0 xai_world
           xai_run).
Defined.
